(** * OWASPbot DAST suite: the findings reporter, the authentication gate
      and the probe loops, embedded from the TypeScript sources.

    JavaScript strings are modelled as [string] (the UTF-8 bytes of the
    text); every literal of the sources that is used here is ASCII.
    Numbers that the sources only use as integers are [nat] (lengths,
    counters) or [Z] (HTTP status codes, the value of [Date.now()]); the
    modification time of a file, which has a fractional part, is a
    rational [Qc]. *)

From Stdlib Require String.
From Stdlib Require Import Ascii.
From Stdlib Require Import ZArith QArith Qcanon Qround Lia.
From stdpp Require Import numbers.
From stdpp Require Import base tactics option list strings pretty gmap.

Local Close Scope Q_scope.

Local Open Scope Z_scope.
Local Open Scope nat_scope.
Local Open Scope stdpp_scope.

(** ** The fragment of the JavaScript string library the sources use *)

Module JS.

(** One-character strings that cannot be written inside a literal. *)
Definition LF : string := String (ascii_of_nat 10) "".
Definition CR : string := String (ascii_of_nat 13) "".
Definition DQ : string := String (ascii_of_nat 34) "".

(** White space and line terminators of the ASCII range, as removed by
    [String.prototype.trim]. *)
Definition is_ws (c : ascii) : bool :=
  let n := nat_of_ascii c in
  (n =? 9) || (n =? 10) || (n =? 11) || (n =? 12) || (n =? 13) || (n =? 32).

Fixpoint trimStart (s : string) : string :=
  match s with
  | EmptyString => EmptyString
  | String c s' => if is_ws c then trimStart s' else s
  end.

Definition is_empty (s : string) : bool :=
  match s with EmptyString => true | String _ _ => false end.

Fixpoint trimEnd (s : string) : string :=
  match s with
  | EmptyString => EmptyString
  | String c s' =>
      let t := trimEnd s' in
      if is_ws c && is_empty t then EmptyString else String c t
  end.

Definition trim (s : string) : string := trimEnd (trimStart s).

(** [s.startsWith(p)] *)
Definition startsWith (s p : string) : bool := String.prefix p s.

(** [s.includes(p)] *)
Fixpoint includes (s p : string) : bool :=
  String.prefix p s ||
  match s with
  | EmptyString => false
  | String _ s' => includes s' p
  end.

Definition lower (c : ascii) : ascii :=
  let n := nat_of_ascii c in
  if (65 <=? n) && (n <=? 90) then ascii_of_nat (n + 32) else c.

(** [s.toLowerCase()] on the ASCII letters. *)
Fixpoint toLowerCase (s : string) : string :=
  match s with
  | EmptyString => EmptyString
  | String c s' => String (lower c) (toLowerCase s')
  end.

(** [xs.join(sep)] *)
Definition join (sep : string) (xs : list string) : string :=
  String.concat sep xs.

(** [s.substring(0, n)] *)
Definition substring0 (n : nat) (s : string) : string :=
  String.substring 0 n s.

(** Interpolation [`${n}`] of a non-negative integer. *)
Definition num (n : nat) : string := pretty n.

(** Interpolation of an integer-valued number. *)
Definition numZ (z : Z) : string := pretty z.

(** [[...new Set(xs)]]: first occurrences, in order. *)
Fixpoint uniq (seen xs : list string) : list string :=
  match xs with
  | [] => []
  | x :: xs' =>
      if bool_decide (x ∈ seen) then uniq seen xs'
      else x :: uniq (x :: seen) xs'
  end.
Definition unique (xs : list string) : list string := uniq [] xs.

Definition hex_digit (n : nat) : ascii :=
  ascii_of_nat (if n <? 10 then 48 + n else 55 + n).

(** The characters [encodeURIComponent] leaves alone:
    [A-Z a-z 0-9 - _ . ! ~ * ' ( )]. *)
Definition uri_unreserved (c : ascii) : bool :=
  let n := nat_of_ascii c in
  ((65 <=? n) && (n <=? 90)) || ((97 <=? n) && (n <=? 122)) ||
  ((48 <=? n) && (n <=? 57)) ||
  (n =? 45) || (n =? 95) || (n =? 46) || (n =? 33) || (n =? 126) ||
  (n =? 42) || (n =? 39) || (n =? 40) || (n =? 41).

(** [encodeURIComponent(s)]: every other byte of the UTF-8 encoding
    becomes [%XX] with upper-case hexadecimal digits. *)
Fixpoint encodeURIComponent (s : string) : string :=
  match s with
  | EmptyString => EmptyString
  | String c s' =>
      if uri_unreserved c then String c (encodeURIComponent s')
      else
        let n := nat_of_ascii c in
        String "%" (String (hex_digit (n / 16)) (String (hex_digit (n mod 16))
          (encodeURIComponent s')))
  end.

End JS.

(** ** utils/helpers.ts: [Finding] and [DASTReporter] *)

Module Helpers.

Inductive Severity := critical | high | medium | low | info.

Global Instance Severity_eq_dec : EqDecision Severity.
Proof. solve_decision. Defined.

Record Finding := {
  severity : Severity;
  title : string;
  description : string;
  url : string;
  payload : option string;
  evidence : option string;
  cwe : option string;
  owasp : option string;
  recommendation : string;
}.

(** The class has one private field, the array of findings. *)
Record DASTReporter := { findings : list Finding }.

(** [new DASTReporter()] *)
Definition new : DASTReporter := {| findings := [] |}.

(** [this.findings.push(finding)]; the method returns nothing. *)
Definition addFinding (finding : Finding) (this : DASTReporter) : DASTReporter :=
  {| findings := findings this ++ [finding] |}.

(** The method hands out the array itself, not a copy; its value here
    is the contents of the array when the call returns. *)
Definition getFindings (this : DASTReporter) : list Finding :=
  findings this.

Definition getFindingsBySeverity (sev : Severity) (this : DASTReporter)
  : list Finding :=
  filter (λ f, severity f = sev) (findings this).

Definition hasFindings (this : DASTReporter) : bool :=
  0 <? length (findings this).

Definition generateSummary (this : DASTReporter) : string :=
  let critical := length (getFindingsBySeverity critical this) in
  let high := length (getFindingsBySeverity high this) in
  let medium := length (getFindingsBySeverity medium this) in
  let low := length (getFindingsBySeverity low this) in
  let info := length (getFindingsBySeverity info this) in
  JS.trim (JS.LF +:+
    "DAST Scan Summary" +:+ JS.LF +:+
    "=================" +:+ JS.LF +:+
    "Critical: " +:+ JS.num critical +:+ JS.LF +:+
    "High:     " +:+ JS.num high +:+ JS.LF +:+
    "Medium:   " +:+ JS.num medium +:+ JS.LF +:+
    "Low:      " +:+ JS.num low +:+ JS.LF +:+
    "Info:     " +:+ JS.num info +:+ JS.LF +:+
    "Total:    " +:+ JS.num (length (findings this)) +:+ JS.LF +:+
    "    ").

(** The methods of the class as calls on a reporter object: each call
    yields the value it returns and the object afterwards. *)
Inductive Call :=
| CallAddFinding (finding : Finding)
| CallGetFindings
| CallGetFindingsBySeverity (sev : Severity)
| CallHasFindings
| CallGenerateSummary.

Inductive Value :=
| VUndefined
| VFindings (fs : list Finding)
| VBool (b : bool)
| VString (s : string).

Definition call (c : Call) (this : DASTReporter) : Value * DASTReporter :=
  match c with
  | CallAddFinding f => (VUndefined, addFinding f this)
  | CallGetFindings => (VFindings (getFindings this), this)
  | CallGetFindingsBySeverity s => (VFindings (getFindingsBySeverity s this), this)
  | CallHasFindings => (VBool (hasFindings this), this)
  | CallGenerateSummary => (VString (generateSummary this), this)
  end.

(** The reporter after a sequence of calls, oldest first. *)
Definition run (cs : list Call) (this : DASTReporter) : DASTReporter :=
  foldl (λ r c, snd (call c r)) this cs.

Definition is_add (c : Call) : bool :=
  match c with CallAddFinding _ => true | _ => false end.

(** The findings passed to [addFinding] in a sequence of calls. *)
Definition added (cs : list Call) : list Finding :=
  omap (λ c, match c with CallAddFinding f => Some f | _ => None end) cs.

Definition severities : list Severity := [critical; high; medium; low; info].

End Helpers.

Import Helpers.

(** ** auth.setup.ts: the authentication state gate *)

Module AuthSetup.

Definition authFile : string := "dast/.auth/user.json".
Definition authExpiryMs : Z := (60 * 60 * 1000)%Z.

(** A whole number of milliseconds as a time. *)
Definition ms (z : Z) : Qc := Q2Qc (inject_Z z).

(** What the gate sees of the file system: the modification time of
    every path that exists, in milliseconds since the epoch.  [mtimeMs]
    has a fractional part, so the times are rationals. *)
Record Stats := { mtimeMs : Qc }.

Definition existsSync (fs : gmap string Qc) (path : string) : bool :=
  bool_decide (is_Some (fs !! path)).

Definition statSync (fs : gmap string Qc) (path : string) : option Stats :=
  (λ t, {| mtimeMs := t |}) <$> fs !! path.

(** [Math.round(x / 60000)]: the nearest integer, halves upwards. *)
Definition round_minutes (x : Qc) : Z :=
  Qfloor (x / ms 60000 + Q2Qc (1 # 2))%Qc.

Definition absent_message : string :=
  JS.LF +:+ JS.LF +:+ "No authentication found. Run: ./scripts/run-dast.sh auth" +:+ JS.LF.

Definition expired_message : string :=
  JS.LF +:+ JS.LF +:+ "Authentication expired. Run: ./scripts/run-dast.sh auth" +:+ JS.LF.

(** The set-up test either throws an [Error] with a message, which
    fails the run, or logs one line and passes. *)
Inductive Outcome :=
| Thrown (message : string)
| Passed (log : string).

(** The line logged for a file of the age [fileAge]. *)
Definition using_stored (fileAge : Qc) : string :=
  JS.LF +:+ "✓ Using stored authentication (age: " +:+
  JS.numZ (round_minutes fileAge) +:+ " minutes)".

(** The body of [setup('Verify authentication state', ...)], run with the
    file system [fs] when [Date.now()] is [now]. *)
Definition verify (fs : gmap string Qc) (now : Z) : Outcome :=
  if negb (existsSync fs authFile) then Thrown absent_message
  else
    match statSync fs authFile with
    | None => Thrown "ENOENT"
    | Some stats =>
        let fileAge := (ms now - mtimeMs stats)%Qc in
        if bool_decide (ms authExpiryMs ≤ fileAge)%Qc then Thrown expired_message
        else Passed (using_stored fileAge)
    end.

(** A number of minutes, in milliseconds. *)
Definition minutes (n : Z) : Qc := ms (n * 60 * 1000).

End AuthSetup.

(** ** The Playwright fixtures the probes run against *)

Module Playwright.

(** A promise settles with a value or rejects with an error. *)
Inductive Result (A : Type) :=
| Ok (a : A)
| Throw (e : string).
Global Arguments Ok {A} a.
Global Arguments Throw {A} e.

Record Request := {
  method : string;
  target : string;
  req_headers : list (string * string);
  data : option string;
  timeout : option Z;
}.

Record Response := {
  status : Z;
  headers : gmap string string;
  text : Result string;
}.

Inductive SameSite := Strict | Lax | SameSiteNone.

Record Cookie := {
  name : string;
  secure : bool;
  httpOnly : bool;
  sameSite : option SameSite;
}.

(** The attributes of a [form] element that the probes read. *)
Record Form := {
  enctype : option string;
  action : option string;
  form_method : option string;
}.

(** Everything outside the suite: the target application answering the
    [n]-th request of a test, the page reached by a navigation, the forms
    and cookies of the browser, and the digits drawn by [Math.random]. *)
Record Env := {
  net : nat → Request → Result Response;
  goto : string → Result string;
  forms : list Form;
  cookies : list Cookie;
  random : nat → string;
}.

(** The state a test changes: the module-level reporter, the requests
    sent so far and the address of the page. *)
Record World := {
  reporter : DASTReporter;
  sent : list Request;
  page_url : string;
}.

Definition start : World :=
  {| reporter := new; sent := []; page_url := "about:blank" |}.

(** An asynchronous computation: it may throw, and what it did to the
    world before throwing stays done. *)
Definition M (A : Type) : Type := Env → World → Result A * World.

Global Instance M_ret : MRet M := λ A a _ w, (Ok a, w).

Global Instance M_bind : MBind M := λ A B f m env w,
  match m env w with
  | (Ok a, w') => f a env w'
  | (Throw e, w') => (Throw e, w')
  end.

Definition throw {A} (e : string) : M A := λ _ w, (Throw e, w).

(** [try { body } catch (e) { handler(e) }] *)
Definition try_catch {A} (body : M A) (handler : string → M A) : M A :=
  λ env w,
    match body env w with
    | (Ok a, w') => (Ok a, w')
    | (Throw e, w') => handler e env w'
    end.

(** Awaiting a promise that has already settled. *)
Definition await {A} (r : Result A) : M A :=
  match r with Ok a => mret a | Throw e => throw e end.

(** The world after one more request. *)
Definition after_request (req : Request) (w : World) : World :=
  {| reporter := reporter w; sent := sent w ++ [req]; page_url := page_url w |}.

(** The world after one more finding. *)
Definition after_finding (f : Finding) (w : World) : World :=
  {| reporter := addFinding f (reporter w); sent := sent w; page_url := page_url w |}.

(** [request.get], [request.post], [request.fetch]: the request is
    sent and the target application answers or the call throws. *)
Definition fetch (req : Request) : M Response := λ env w,
  (net env (length (sent w)) req, after_request req w).

(** The request of [request.get(url, { timeout: ms })]. *)
Definition get_request (url : string) (ms : Z) : Request :=
  {| method := "GET"; target := url; req_headers := []; data := None;
     timeout := Some ms |}.

Definition get (url : string) (ms : Z) : M Response :=
  fetch (get_request url ms).

(** [page.goto(url)] *)
Definition page_goto (url : string) : M unit := λ env w,
  match goto env url with
  | Ok landed =>
      (Ok (), {| reporter := reporter w; sent := sent w; page_url := landed |})
  | Throw e => (Throw e, w)
  end.

(** [page.url()] *)
Definition page_location : M string := λ _ w, (Ok (page_url w), w).

(** [context.cookies()] *)
Definition context_cookies : M (list Cookie) := λ env w, (Ok (cookies env), w).

(** [page.$$('form')], with the attributes of each element. *)
Definition page_forms : M (list Form) := λ env w, (Ok (forms env), w).

(** [Math.random().toString(36).substring(2)] *)
Definition random_suffix : M string := λ env w,
  (Ok (random env (length (sent w))), w).

(** [reporter.addFinding(finding)] on the reporter of the test file. *)
Definition add_finding (finding : Finding) : M unit := λ _ w,
  (Ok (), after_finding finding w).

(** How the body of a loop ends: it falls through to the next element
    or leaves the loop with [break]. *)
Inductive Flow := Next | Break.

(** [for (const x of xs) { body }] *)
Fixpoint for_of {A} (xs : list A) (body : A → M Flow) : M unit :=
  match xs with
  | [] => mret ()
  | x :: xs' =>
      flow ← body x;
      match flow with
      | Next => for_of xs' body
      | Break => mret ()
      end
  end.

(** [if (c) { body }] *)
Definition when (c : bool) (body : M unit) : M unit :=
  if c then body else mret ().

End Playwright.

Import Playwright.

(** ** The regular expressions of the path-traversal probe

    The ten patterns of [sensitiveFilePatterns] use three constructs: a
    literal character, a character escaped with a backslash, and [?] after
    a character.  [compile] reads exactly this fragment. *)

Module RegExp.

Inductive Atom :=
| Lit (c : ascii)
| Opt (c : ascii).

Record t := { source : string; flags : string }.

Definition is_backslash (c : ascii) : bool := nat_of_ascii c =? 92.
Definition is_question (c : ascii) : bool := nat_of_ascii c =? 63.

Fixpoint compile (src : string) : list Atom :=
  match src with
  | EmptyString => []
  | String c s1 =>
      if is_backslash c then
        match s1 with
        | EmptyString => [Lit c]
        | String e s2 =>
            match s2 with
            | EmptyString => [Lit e]
            | String q s3 =>
                if is_question q then Opt e :: compile s3
                else Lit e :: compile s2
            end
        end
      else
        match s1 with
        | EmptyString => [Lit c]
        | String q s2 =>
            if is_question q then Opt c :: compile s2
            else Lit c :: compile s1
        end
  end.

Definition ignoreCase (re : t) : bool := JS.includes (flags re) "i".

(** Two characters match; under the [i] flag, up to the case of the
    ASCII letters. *)
Definition same (ic : bool) (c d : ascii) : bool :=
  if ic then bool_decide (JS.lower c = JS.lower d) else bool_decide (c = d).

Definition head_is (ic : bool) (c : ascii) (s : string) (k : string → bool) : bool :=
  match s with
  | EmptyString => false
  | String d s' => same ic c d && k s'
  end.

(** The atoms match a prefix of [s]; an optional character is tried
    first present, then absent. *)
Fixpoint match_here (ic : bool) (atoms : list Atom) (s : string) : bool :=
  match atoms with
  | [] => true
  | Lit c :: rest => head_is ic c s (match_here ic rest)
  | Opt c :: rest => head_is ic c s (match_here ic rest) || match_here ic rest s
  end.

Fixpoint search (ic : bool) (atoms : list Atom) (s : string) : bool :=
  match_here ic atoms s ||
  match s with
  | EmptyString => false
  | String _ s' => search ic atoms s'
  end.

(** [re.test(s)] for a pattern without the [g] flag. *)
Definition test (re : t) (s : string) : bool :=
  search (ignoreCase re) (compile (source re)) s.

(** [`${re}`] *)
Definition toString (re : t) : string :=
  "/" +:+ source re +:+ "/" +:+ flags re.

End RegExp.

(** ** tests/06-path-traversal.spec.ts *)

Module PathTraversal.

Definition testUrls : list string := [
  "/?file="; "/?path="; "/?page="; "/?template="; "/?include="; "/?load=";
  "/?read="; "/?doc="; "/?document="; "/?resource="; "/download?file=";
  "/static?path="; "/api/files?name=" ].

Definition passwd_pattern : RegExp.t :=
  {| RegExp.source := "root:x:0:0:"; RegExp.flags := "" |}.

Definition sensitiveFilePatterns : list RegExp.t := [
  passwd_pattern;
  {| RegExp.source := "daemon:x:1:1:"; RegExp.flags := "" |};
  {| RegExp.source := "nobody:x:"; RegExp.flags := "" |};
  {| RegExp.source := "\[boot loader\]"; RegExp.flags := "i" |};
  {| RegExp.source := "\[operating systems\]"; RegExp.flags := "i" |};
  {| RegExp.source := "<?xml"; RegExp.flags := "i" |};
  {| RegExp.source := "<configuration>"; RegExp.flags := "i" |};
  {| RegExp.source := "<connectionStrings>"; RegExp.flags := "i" |};
  {| RegExp.source := "DEBUG"; RegExp.flags := "i" |};
  {| RegExp.source := "LOG"; RegExp.flags := "" |} ].

Definition finding (testUrl payload : string) (pattern : RegExp.t) : Finding :=
  {| severity := critical;
     title := "Path Traversal Vulnerability";
     description := "Sensitive file content accessible via path traversal";
     url := testUrl;
     payload := Some payload;
     evidence := Some ("Sensitive content pattern matched: " +:+ RegExp.toString pattern);
     cwe := Some "CWE-22";
     owasp := Some "A01:2021 - Broken Access Control";
     recommendation :=
       "Validate file paths against a whitelist and use safe file access methods" |}.

Definition testUrl (baseUrl payload : string) : string :=
  baseUrl +:+ JS.encodeURIComponent payload.

(** The body of the inner loop: one base URL with one payload. *)
Definition attempt (baseUrl payload : string) : M Flow :=
  let testUrl := testUrl baseUrl payload in
  try_catch
    (response ← get testUrl 10000;
     let status := status response in
     body ← try_catch (await (text response)) (λ _, mret "");
     when ((status =? 200)%Z && (0 <? String.length body))
       (for_of sensitiveFilePatterns (λ pattern,
          if RegExp.test pattern body then
            add_finding (finding testUrl payload pattern);;
            mret Break
          else mret Next));;
     mret Next)
    (λ _, mret Next).

Section fixtures.
(** [pathTraversalPayloads] is imported from fixtures/payloads, which is
    not among the sources: the test is stated for any list. *)
Variable pathTraversalPayloads : list string.

(** The test 'Check for path traversal in URL parameters'. *)
Definition check_url_parameters : M unit :=
  for_of testUrls (λ baseUrl,
    for_of (take 5 pathTraversalPayloads) (λ payload,
      attempt baseUrl payload);;
    mret Next).
End fixtures.

End PathTraversal.

(** ** The CORS test file *)

Module Cors.

Definition testOrigins : list string :=
  [ "https://evil.com"; "https://attacker.com"; "https://null"; "null" ].


Definition permissive (endpoint : string) : Finding :=
  {| severity := high;
     title := "Overly Permissive CORS";
     description := "Access-Control-Allow-Origin header is set to *";
     url := endpoint;
     payload := None;
     evidence := Some "Access-Control-Allow-Origin: *";
     cwe := Some "CWE-942";
     owasp := Some "A01:2021 - Broken Access Control";
     recommendation := "Restrict CORS to specific trusted origins" |}.

Definition reflected (endpoint origin acao acac : string) : Finding :=
  {| severity := critical;
     title := "CORS Allows Arbitrary Origin with Credentials";
     description := "Server reflects arbitrary origin with credentials enabled";
     url := endpoint;
     payload := None;
     evidence := Some ("Origin: " +:+ origin +:+ ", ACAO: " +:+ acao +:+
                       ", ACAC: " +:+ acac);
     cwe := Some "CWE-942";
     owasp := Some "A01:2021 - Broken Access Control";
     recommendation :=
       "Validate origin against a whitelist and avoid reflecting arbitrary origins" |}.

Definition null_origin (endpoint : string) : Finding :=
  {| severity := high;
     title := "CORS Allows Null Origin";
     description :=
       "Server allows null origin which can be exploited via sandboxed iframes";
     url := endpoint;
     payload := None;
     evidence := Some "Access-Control-Allow-Origin: null";
     cwe := Some "CWE-942";
     owasp := Some "A01:2021 - Broken Access Control";
     recommendation := "Block null origin in CORS policy" |}.

Definition probe_request (endpoint origin : string) : Request :=
  {| method := "GET"; target := endpoint; req_headers := [("Origin", origin)];
     data := None; timeout := None |}.

(** The body of the inner loop: one endpoint with one origin. *)
Definition attempt (endpoint origin : string) : M Flow :=
  try_catch
    (response ← fetch (probe_request endpoint origin);
     let acao := headers response !! "access-control-allow-origin" in
     let acac := headers response !! "access-control-allow-credentials" in
     when (bool_decide (acao = Some "*"))
       (add_finding (permissive endpoint));;
     when (bool_decide (acao = Some origin) && bool_decide (acac = Some "true"))
       (add_finding (reflected endpoint origin origin "true"));;
     when (bool_decide (acao = Some "null"))
       (add_finding (null_origin endpoint));;
     mret Next)
    (λ _, mret Next).


End Cors.

(** ** tests/03-security-headers.spec.ts: the cookie flags *)

Module SecurityHeaders.

Definition push_if (c : bool) (issue : string) (issues : list string) : list string :=
  if c then issues ++ [issue] else issues.

Definition sensitive_name (cookie : Cookie) : bool :=
  JS.includes (JS.toLowerCase (name cookie)) "session" ||
  JS.includes (JS.toLowerCase (name cookie)) "token" ||
  JS.includes (JS.toLowerCase (name cookie)) "auth".

(** [!cookie.sameSite || cookie.sameSite === 'None'] *)
Definition lax_sameSite (cookie : Cookie) : bool :=
  match sameSite cookie with
  | None | Some SameSiteNone => true
  | Some _ => false
  end.

Definition issues_of (pageUrl : string) (cookie : Cookie) : list string :=
  let issues := [] in
  let issues :=
    push_if (negb (secure cookie) && JS.startsWith pageUrl "https://")
      "Missing Secure flag" issues in
  let issues :=
    push_if (negb (httpOnly cookie) && sensitive_name cookie)
      "Missing HttpOnly flag on sensitive cookie" issues in
  push_if (lax_sameSite cookie) "Missing or lax SameSite attribute" issues.

Definition finding (pageUrl : string) (cookie : Cookie) (issues : list string)
  : Finding :=
  {| severity := medium;
     title := "Insecure Cookie: " +:+ name cookie;
     description := "Cookie has security issues: " +:+ JS.join ", " issues;
     url := pageUrl;
     payload := None;
     evidence := Some (JS.join "; " issues);
     cwe := Some "CWE-614";
     owasp := Some "A05:2021 - Security Misconfiguration";
     recommendation :=
       "Set Secure, HttpOnly, and SameSite=Strict/Lax flags on cookies" |}.

(** The body of the loop: one cookie. *)
Definition check_cookie (cookie : Cookie) : M Flow :=
  here ← page_location;
  let issues := issues_of here cookie in
  when (0 <? length issues)
    (here ← page_location;
     add_finding (finding here cookie issues));;
  mret Next.

(** The test 'Check cookie security flags'. *)
Definition check_cookie_flags : M unit :=
  page_goto "/";;
  cookies ← context_cookies;
  for_of cookies check_cookie.

End SecurityHeaders.

(** ** The file-upload test file *)

Module FileUpload.

Record File := {
  file_name : string;
  content : string;
  type : string;
  risk : Severity;
}.

Definition maliciousFiles : list File := [
    {| file_name := "shell.php";
       content := "<?php system($_GET[" +:+ JS.DQ +:+ "cmd" +:+ JS.DQ +:+ "]); ?>";
       type := "application/x-php";
       risk := critical |};
    {| file_name := "shell.jsp";
       content := "<% Runtime.getRuntime().exec(request.getParameter(" +:+ JS.DQ +:+ "cmd" +:+ JS.DQ +:+ ")); %>";
       type := "application/x-jsp";
       risk := critical |};
    {| file_name := "shell.asp";
       content := "<% eval request(" +:+ JS.DQ +:+ "cmd" +:+ JS.DQ +:+ ") %>";
       type := "application/x-asp";
       risk := critical |};
    {| file_name := "shell.aspx";
       content := "<%@ Page Language=" +:+ JS.DQ +:+ "C#" +:+ JS.DQ +:+ " %><% System.Diagnostics.Process.Start(Request[" +:+ JS.DQ +:+ "cmd" +:+ JS.DQ +:+ "]); %>";
       type := "application/x-aspx";
       risk := critical |};
    {| file_name := "malicious.html";
       content := "<script>alert(" +:+ JS.DQ +:+ "XSS" +:+ JS.DQ +:+ ")</script>";
       type := "text/html";
       risk := high |};
    {| file_name := "malicious.svg";
       content := "<svg xmlns=" +:+ JS.DQ +:+ "http://www.w3.org/2000/svg" +:+ JS.DQ +:+ " onload=" +:+ JS.DQ +:+ "alert(1)" +:+ JS.DQ +:+ "/>";
       type := "image/svg+xml";
       risk := high |};
    {| file_name := "malicious.pdf";
       content := "%PDF-1.4" +:+ JS.LF +:+ "1 0 obj" +:+ JS.LF +:+ "<<" +:+ JS.LF +:+ "/Type /Catalog" +:+ JS.LF +:+ "/Pages 2 0 R" +:+ JS.LF +:+ "/OpenAction 3 0 R" +:+ JS.LF +:+ ">>" +:+ JS.LF +:+ "endobj" +:+ JS.LF +:+ "2 0 obj" +:+ JS.LF +:+ "<<" +:+ JS.LF +:+ "/Type /Pages" +:+ JS.LF +:+ "/Kids []" +:+ JS.LF +:+ "/Count 0" +:+ JS.LF +:+ ">>" +:+ JS.LF +:+ "endobj" +:+ JS.LF +:+ "3 0 obj" +:+ JS.LF +:+ "<<" +:+ JS.LF +:+ "/S /JavaScript" +:+ JS.LF +:+ "/JS (app.alert(" +:+ JS.DQ +:+ "XSS" +:+ JS.DQ +:+ "))" +:+ JS.LF +:+ ">>" +:+ JS.LF +:+ "endobj" +:+ JS.LF +:+ "xref" +:+ JS.LF +:+ "0 4" +:+ JS.LF +:+ "0000000000 65535 f" +:+ JS.LF +:+ "0000000009 00000 n" +:+ JS.LF +:+ "0000000058 00000 n" +:+ JS.LF +:+ "0000000115 00000 n" +:+ JS.LF +:+ "trailer" +:+ JS.LF +:+ "<<" +:+ JS.LF +:+ "/Size 4" +:+ JS.LF +:+ "/Root 1 0 R" +:+ JS.LF +:+ ">>" +:+ JS.LF +:+ "startxref" +:+ JS.LF +:+ "190" +:+ JS.LF +:+ "%%EOF";
       type := "application/pdf";
       risk := medium |};
    {| file_name := "double_extension.php.jpg";
       content := "<?php system($_GET[" +:+ JS.DQ +:+ "cmd" +:+ JS.DQ +:+ "]); ?>";
       type := "image/jpeg";
       risk := high |};
    {| file_name := "null_byte.php%00.jpg";
       content := "<?php echo " +:+ JS.DQ +:+ "shell" +:+ JS.DQ +:+ "; ?>";
       type := "image/jpeg";
       risk := high |};
    {| file_name := ".htaccess";
       content := "AddType application/x-httpd-php .jpg" +:+ JS.LF +:+ "php_flag engine on";
       type := "text/plain";
       risk := critical |} ].

Definition uploadEndpoints : list string :=
  [ "/upload"; "/api/upload"; "/api/files"; "/files/upload"; "/attachments" ].

(** [a || b] on attribute values: [null] and the empty string are falsy. *)
Definition or_else (a : option string) (b : string) : string :=
  match a with
  | Some s => if JS.is_empty s then b else s
  | None => b
  end.

Record UploadForm := {
  uf_action : string;
  uf_enctype : string;
  uf_method : string;
}.

Definition uploadForms (forms : list Form) : list UploadForm :=
  omap (λ form,
    if bool_decide (enctype form = Some "multipart/form-data") then
      Some {| uf_action := or_else (action form) "";
              uf_enctype := "multipart/form-data";
              uf_method := or_else (form_method form) "post" |}
    else None) forms.

Definition uniqueEndpoints (forms : list Form) : list string :=
  JS.unique (((λ f, or_else (Some (uf_action f)) "/upload") <$> uploadForms forms)
             ++ uploadEndpoints).

Definition multipart (boundary : string) (file : File) : string :=
  JS.join (JS.CR +:+ JS.LF) [
    "------" +:+ boundary;
    "Content-Disposition: form-data; name=" +:+ JS.DQ +:+ "file" +:+ JS.DQ +:+
      "; filename=" +:+ JS.DQ +:+ file_name file +:+ JS.DQ;
    "Content-Type: " +:+ type file;
    "";
    content file;
    "------" +:+ boundary +:+ "--" ].

Definition upload_request (endpoint boundary : string) (file : File) : Request :=
  {| method := "POST"; target := endpoint;
     req_headers :=
       [("Content-Type", "multipart/form-data; boundary=----" +:+ boundary)];
     data := Some (multipart boundary file);
     timeout := Some 15000%Z |}.

Definition successIndicators (file : File) : list string :=
  [ "upload successful"; "file uploaded"; "success"; "200"; "location";
    JS.toLowerCase (file_name file) ].

Definition isSuccess (file : File) (status : Z) (responseBody : string) : bool :=
  existsb (λ indicator,
    JS.includes (JS.toLowerCase responseBody) indicator ||
    (status =? 201)%Z || (status =? 200)%Z) (successIndicators file).

Definition stored (endpoint fileUrl : string) (file : File) : Finding :=
  {| severity := risk file;
     title := "Unrestricted File Upload";
     description := "Server accepts and stores executable file " +:+ JS.DQ +:+
                    file_name file +:+ JS.DQ;
     url := endpoint;
     payload := None;
     evidence := Some ("File accessible at: " +:+ fileUrl);
     cwe := Some "CWE-434";
     owasp := Some "A01:2021 - Broken Access Control";
     recommendation :=
       "Validate file extensions, MIME types, and content. Store uploads outside web root." |}.

Definition accepted (endpoint : string) (file : File) (status : Z) : Finding :=
  {| severity := high;
     title := "Potential Unrestricted File Upload";
     description := "Server accepted potentially dangerous file " +:+ JS.DQ +:+
                    file_name file +:+ JS.DQ;
     url := endpoint;
     payload := None;
     evidence := Some ("Response status: " +:+ JS.numZ status);
     cwe := Some "CWE-434";
     owasp := Some "A01:2021 - Broken Access Control";
     recommendation :=
       "Implement strict file type validation and content inspection" |}.

(** The six patterns of [fileUrlUrls], all with the flags [gi]: a quote,
    then in group 1 a path through the directory, then a quote. *)
Definition url_pattern (dir : string) : RegExp.t :=
  let quotes := JS.DQ +:+ "'" in
  {| RegExp.source :=
       "[" +:+ quotes +:+ "](\/[^" +:+ quotes +:+ "]*" +:+ dir +:+
       "\/[^" +:+ quotes +:+ "]*)[" +:+ quotes +:+ "]";
     RegExp.flags := "gi" |}.

Definition url_patterns : list RegExp.t :=
  url_pattern <$>
    [ "uploads?"; "files?"; "attachments?"; "storage"; "media"; "assets" ].

Section runtime.
(** The regular-expression engine of the runtime on these patterns:
    [exec_all re s] lists capture group 1 of the successive matches of
    [re] in [s], the values the [while] loop of [fileUrlUrls] pushes. *)
Variable exec_all : RegExp.t → string → list string.

Definition fileUrlUrls (responseBody filename : string) : list string :=
  JS.unique (concat ((λ pattern, exec_all pattern responseBody) <$> url_patterns)
             ++ [ "/uploads/" +:+ filename; "/files/" +:+ filename;
                  "/attachments/" +:+ filename ]).

(** The body of the innermost loop: fetch one candidate address of
    the uploaded file. *)
Definition fetch_back (endpoint : string) (file : File) (fileUrl : string)
  : M Flow :=
  try_catch
    (fileResponse ← get fileUrl 5000;
     when (status fileResponse =? 200)%Z
       (fileContent ← await (text fileResponse);
        when (JS.includes fileContent (JS.substring0 30 (content file)))
          (add_finding (stored endpoint fileUrl file)));;
     mret Next)
    (λ _, mret Next).

(** The body of the inner loop: one endpoint with one file. *)
Definition attempt (endpoint : string) (file : File) : M Flow :=
  try_catch
    (suffix ← random_suffix;
     let boundary := "----WebKitFormBoundary" +:+ suffix in
     response ← fetch (upload_request endpoint boundary file);
     responseBody ← await (text response);
     let isSuccess := isSuccess file (status response) responseBody in
     for_of (fileUrlUrls responseBody (file_name file))
       (fetch_back endpoint file);;
     when (isSuccess &&
           (bool_decide (risk file = critical) || bool_decide (risk file = high)))
       (add_finding (accepted endpoint file (status response)));;
     mret Next)
    (λ _, mret Next).

(** The loops of the test 'Check for unrestricted file upload'. *)
Definition upload_all (endpoints : list string) : M unit :=
  for_of endpoints (λ endpoint,
    for_of maliciousFiles (λ file, attempt endpoint file);;
    mret Next).

(** The test 'Check for unrestricted file upload'. *)
Definition check_unrestricted_upload : M unit :=
  page_goto "/";;
  forms ← page_forms;
  upload_all (uniqueEndpoints forms).
End runtime.

End FileUpload.

(** ** More of the JavaScript library: the other tests and helpers use it *)

Module JSMore.

(** A value used as a condition: [undefined], [null] and the empty string
    are falsy. *)
Definition truthy (v : option string) : bool :=
  match v with
  | Some s => negb (JS.is_empty s)
  | None => false
  end.

(** [a || b] on strings that may be absent. *)
Definition or_default (a : option string) (b : string) : string :=
  if truthy a then default b a else b.

Definition upper (c : ascii) : ascii :=
  let n := nat_of_ascii c in
  if (97 <=? n) && (n <=? 122) then ascii_of_nat (n - 32) else c.

(** [s.toUpperCase()] on the ASCII letters. *)
Fixpoint toUpperCase (s : string) : string :=
  match s with
  | EmptyString => EmptyString
  | String c s' => String (upper c) (toUpperCase s')
  end.

(** [s.split(sep)] for a separator of one character. *)
Fixpoint split (sep : ascii) (s : string) : list string :=
  match s with
  | EmptyString => [EmptyString]
  | String c s' =>
      if bool_decide (c = sep) then EmptyString :: split sep s'
      else
        match split sep s' with
        | piece :: pieces => String c piece :: pieces
        | [] => [String c EmptyString]
        end
  end.

(** [xs.pop()], the value it returns. *)
Definition pop (xs : list string) : option string := last xs.

(** [xs.includes(x)] *)
Definition member (xs : list string) (x : string) : bool := bool_decide (x ∈ xs).

End JSMore.

(** ** utils/helpers.ts: the scanning helpers *)

Module Scan.

Record HeaderConfig := {
  cfg_severity : Severity;
  cfg_recommendation : string;
  cfg_cwe : string;
}.

(** The entries of the object [securityHeaders], in the order of its keys. *)
Definition securityHeaders : list (string * HeaderConfig) := [
  ("x-frame-options",
   {| cfg_severity := medium;
      cfg_recommendation := "Add X-Frame-Options header to prevent clickjacking attacks";
      cfg_cwe := "CWE-1021" |});
  ("x-content-type-options",
   {| cfg_severity := medium;
      cfg_recommendation := "Add X-Content-Type-Options: nosniff to prevent MIME type sniffing";
      cfg_cwe := "CWE-116" |});
  ("strict-transport-security",
   {| cfg_severity := medium;
      cfg_recommendation := "Add HSTS header to enforce HTTPS connections";
      cfg_cwe := "CWE-319" |});
  ("content-security-policy",
   {| cfg_severity := high;
      cfg_recommendation := "Add Content-Security-Policy header to prevent XSS attacks";
      cfg_cwe := "CWE-1021" |});
  ("x-xss-protection",
   {| cfg_severity := low;
      cfg_recommendation := "Consider adding X-XSS-Protection header (deprecated but still useful)";
      cfg_cwe := "CWE-79" |});
  ("referrer-policy",
   {| cfg_severity := low;
      cfg_recommendation := "Add Referrer-Policy header to control referrer information";
      cfg_cwe := "CWE-200" |});
  ("permissions-policy",
   {| cfg_severity := low;
      cfg_recommendation := "Add Permissions-Policy header to restrict browser features";
      cfg_cwe := "CWE-1021" |}) ].

(** The two properties of the argument that [checkSecurityHeaders]
    reads: the object [headers], indexed by name, and [url]. *)
Record HeaderSource := {
  hs_headers : gmap string string;
  hs_url : string;
}.

Definition missing_header (response : HeaderSource) (header : string)
    (config : HeaderConfig) : Finding :=
  {| severity := cfg_severity config;
     title := "Missing Security Header: " +:+ header;
     description := "The " +:+ header +:+ " header is not set";
     url := hs_url response;
     payload := None;
     evidence := None;
     cwe := Some (cfg_cwe config);
     owasp := Some "A05:2021 - Security Misconfiguration";
     recommendation := cfg_recommendation config |}.

(** One turn of the loop of [checkSecurityHeaders]. *)
Definition check_header (response : HeaderSource) (findings : list Finding)
    (entry : string * HeaderConfig) : list Finding :=
  if negb (JSMore.truthy (hs_headers response !! entry.1))
  then findings ++ [missing_header response entry.1 entry.2]
  else findings.

Definition checkSecurityHeaders (response : HeaderSource) : list Finding :=
  foldl (check_header response) [] securityHeaders.

(** A [form] element as [findForms] reads it: two attributes, and the
    [name] attribute of each of its [input], [textarea] and [select]. *)
Record FormElement := {
  fe_action : option string;
  fe_method : option string;
  fe_inputs : list (option string);
}.

Record FormData := {
  fd_action : string;
  fd_method : string;
  fd_inputs : list string;
}.

(** The inner loop of [findForms]: [if (name) inputNames.push(name)]. *)
Definition collect_name (inputNames : list string) (name : option string)
    : list string :=
  if JSMore.truthy name then inputNames ++ [default "" name] else inputNames.

Definition form_data (form : FormElement) : FormData :=
  {| fd_action := JSMore.or_default (fe_action form) "";
     fd_method := JS.toLowerCase (JSMore.or_default (fe_method form) "get");
     fd_inputs := foldl collect_name [] (fe_inputs form) |}.

(** [findForms(page)] on the [form] elements of the page. *)
Definition findForms (forms : list FormElement) : list FormData :=
  foldl (λ formData form, formData ++ [form_data form]) [] forms.

(** The condition under which [findLinks] keeps an address. *)
Definition keeps (href : option string) : bool :=
  JSMore.truthy href
  && negb (JS.startsWith (default "" href) "#")
  && negb (JS.startsWith (default "" href) "javascript:").

Definition collect_href (hrefs : list string) (href : option string) : list string :=
  if keeps href then hrefs ++ [default "" href] else hrefs.

(** [findLinks(page)] on the [href] attribute of each [a[href]] element. *)
Definition findLinks (links : list (option string)) : list string :=
  JS.unique (foldl collect_href [] links).

End Scan.

(** ** The authentication script: the check for a stored state *)

Module AuthScript.

Definition authFile : string := "dast/.auth/user.json".
Definition authExpiryMs : Z := (60 * 60 * 1000)%Z.

(** How the script goes on after its first lines: it logs two lines and
    exits with status 0, or it opens the browser for a manual login. *)
Inductive Step :=
| Exit (log1 log2 : string)
| Login
| Crash (message : string).

Definition stored_state (fs : gmap string Qc) (now : Z) : Step :=
  if AuthSetup.existsSync fs authFile then
    match AuthSetup.statSync fs authFile with
    | None => Crash "ENOENT"
    | Some stats =>
        let fileAge := (AuthSetup.ms now - AuthSetup.mtimeMs stats)%Qc in
        if bool_decide (fileAge < AuthSetup.ms authExpiryMs)%Qc then
          Exit (JS.LF +:+ "✓ Using stored authentication (age: " +:+
                JS.numZ (AuthSetup.round_minutes fileAge) +:+ " minutes)")
               ("  To force re-authentication, delete: dast/.auth/user.json" +:+ JS.LF)
        else Login
    end
  else Login.

End AuthScript.

(** ** tests/03-security-headers.spec.ts: the two header tests *)

Module HeaderTests.

Record Header := {
  h_name : string;
  h_severity : Severity;
  h_cwe : string;
  h_owasp : string;
  h_recommendation : string;
}.

Definition securityHeaders : list Header := [
  {| h_name := "x-frame-options"; h_severity := medium; h_cwe := "CWE-1021";
     h_owasp := "A05:2021 - Security Misconfiguration";
     h_recommendation := "Add X-Frame-Options: DENY or SAMEORIGIN to prevent clickjacking" |};
  {| h_name := "x-content-type-options"; h_severity := medium; h_cwe := "CWE-116";
     h_owasp := "A05:2021 - Security Misconfiguration";
     h_recommendation := "Add X-Content-Type-Options: nosniff to prevent MIME sniffing" |};
  {| h_name := "strict-transport-security"; h_severity := high; h_cwe := "CWE-319";
     h_owasp := "A02:2021 - Cryptographic Failures";
     h_recommendation := "Add Strict-Transport-Security header (e.g., max-age=31536000; includeSubDomains)" |};
  {| h_name := "content-security-policy"; h_severity := high; h_cwe := "CWE-1021";
     h_owasp := "A05:2021 - Security Misconfiguration";
     h_recommendation := "Add Content-Security-Policy header with restrictive policies" |};
  {| h_name := "x-xss-protection"; h_severity := low; h_cwe := "CWE-79";
     h_owasp := "A05:2021 - Security Misconfiguration";
     h_recommendation := "Add X-XSS-Protection: 1; mode=block (deprecated but useful for older browsers)" |};
  {| h_name := "referrer-policy"; h_severity := low; h_cwe := "CWE-200";
     h_owasp := "A01:2021 - Broken Access Control";
     h_recommendation := "Add Referrer-Policy header (e.g., strict-origin-when-cross-origin)" |};
  {| h_name := "permissions-policy"; h_severity := low; h_cwe := "CWE-1021";
     h_owasp := "A05:2021 - Security Misconfiguration";
     h_recommendation := "Add Permissions-Policy header to restrict browser features" |};
  {| h_name := "cross-origin-opener-policy"; h_severity := medium; h_cwe := "CWE-1021";
     h_owasp := "A05:2021 - Security Misconfiguration";
     h_recommendation := "Add Cross-Origin-Opener-Policy header (e.g., same-origin)" |};
  {| h_name := "cross-origin-resource-policy"; h_severity := medium; h_cwe := "CWE-1021";
     h_owasp := "A05:2021 - Security Misconfiguration";
     h_recommendation := "Add Cross-Origin-Resource-Policy header (e.g., same-origin)" |} ].

(** The request of [request.get('/')]. *)
Definition root_request : Request :=
  {| method := "GET"; target := "/"; req_headers := []; data := None;
     timeout := None |}.



Definition infoHeaders : list string :=
  [ "server"; "x-powered-by"; "x-aspnet-version"; "x-aspnetmvc-version" ].

Definition disclosed (name value : string) : Finding :=
  {| severity := low;
     title := "Information Disclosure: " +:+ name;
     description := "The " +:+ name +:+ " header reveals technology information: " +:+ value;
     url := "/";
     payload := None;
     evidence := Some (name +:+ ": " +:+ value);
     cwe := Some "CWE-200";
     owasp := Some "A01:2021 - Broken Access Control";
     recommendation := "Remove or obfuscate the " +:+ name +:+
                       " header to avoid revealing technology stack" |}.

(** The test 'Check for information disclosure headers'. *)
Definition check_info_headers : M unit :=
  response ← fetch root_request;
  let headers := headers response in
  for_of infoHeaders (λ name,
    when (JSMore.truthy (headers !! name))
      (add_finding (disclosed name (default "" (headers !! name))));;
    mret Next).

End HeaderTests.

(** ** tests/06-path-traversal.spec.ts: the API endpoints *)

Module PathTraversalApi.

Definition endpoints : list string :=
  [ "/api/files/"; "/api/download/"; "/api/documents/"; "/files/"; "/static/";
    "/uploads/" ].

Definition finding (testUrl payload : string) : Finding :=
  {| severity := critical;
     title := "Path Traversal in API Endpoint";
     description := "Path traversal allows access to sensitive system files";
     url := testUrl;
     payload := Some payload;
     evidence := None;
     cwe := Some "CWE-22";
     owasp := Some "A01:2021 - Broken Access Control";
     recommendation :=
       "Sanitize file paths and restrict file access to approved directories" |}.

(** The body of the inner loop: one endpoint with one payload, which is
    appended as it is. *)
Definition attempt (endpoint payload : string) : M Flow :=
  let testUrl := endpoint +:+ payload in
  try_catch
    (response ← get testUrl 10000;
     let status := status response in
     when (status =? 200)%Z
       (body ← try_catch (await (text response)) (λ _, mret "");
        when (JS.includes body "root:" || JS.includes body "[boot loader]")
          (add_finding (finding testUrl payload)));;
     mret Next)
    (λ _, mret Next).

Section fixtures.
(** [pathTraversalPayloads], as for the first test: any list. *)
Variable pathTraversalPayloads : list string.

End fixtures.

End PathTraversalApi.

(** ** The CORS test file: the preflight test *)

Module CorsPreflight.

Definition endpoints : list string := [ "/api"; "/api/user"; "/api/data" ].

Definition preflight (endpoint : string) : Request :=
  {| method := "OPTIONS"; target := endpoint;
     req_headers :=
       [ ("Origin", "https://evil.com");
         ("Access-Control-Request-Method", "POST");
         ("Access-Control-Request-Headers", "Content-Type, Authorization") ];
     data := None; timeout := None |}.

Definition dangerousMethods : list string := [ "PUT"; "DELETE"; "PATCH" ].

(** [acam ? acam.split(',').map(m => m.trim()) : []] *)
Definition methods (acam : option string) : list string :=
  if JSMore.truthy acam then JS.trim <$> JSMore.split "," (default "" acam) else [].

Definition hasDangerousMethods (acam : option string) : bool :=
  existsb (λ m, JSMore.member dangerousMethods (JSMore.toUpperCase m)) (methods acam).

Definition exposed (endpoint acam : string) : Finding :=
  {| severity := medium;
     title := "CORS Exposes Dangerous Methods";
     description := "Preflight response exposes dangerous HTTP methods";
     url := endpoint;
     payload := None;
     evidence := Some ("Methods allowed: " +:+ acam);
     cwe := Some "CWE-942";
     owasp := Some "A01:2021 - Broken Access Control";
     recommendation := "Only expose necessary HTTP methods in CORS policy" |}.

(** The body of the loop: one endpoint. *)
Definition attempt (endpoint : string) : M Flow :=
  try_catch
    (response ← fetch (preflight endpoint);
     let acao := headers response !! "access-control-allow-origin" in
     let acam := headers response !! "access-control-allow-methods" in
     when (bool_decide (acao = Some "*") || bool_decide (acao = Some "https://evil.com"))
       (when (hasDangerousMethods acam)
          (add_finding (exposed endpoint (default "" acam))));;
     mret Next)
    (λ _, mret Next).

(** The test 'Check for CORS preflight handling'. *)
Definition check_preflight : M unit := for_of endpoints attempt.

End CorsPreflight.

(** ** The file-upload test file: the SVG and the file-name tests *)

Module UploadMore.


(** The multipart body the two tests build around a file name, a content
    type and a content. *)
Definition multipart (boundary filename type content : string) : string :=
  JS.join (JS.CR +:+ JS.LF) [
    "------" +:+ boundary;
    "Content-Disposition: form-data; name=" +:+ JS.DQ +:+ "file" +:+ JS.DQ +:+
      "; filename=" +:+ JS.DQ +:+ filename +:+ JS.DQ;
    "Content-Type: " +:+ type;
    "";
    content;
    "------" +:+ boundary +:+ "--" ].

Definition upload (endpoint boundary filename type content : string) : Request :=
  {| method := "POST"; target := endpoint;
     req_headers :=
       [("Content-Type", "multipart/form-data; boundary=----" +:+ boundary)];
     data := Some (multipart boundary filename type content);
     timeout := Some 10000%Z |}.





(** [filename.split('/').pop()] *)
Definition last_segment (filename : string) : string :=
  default "" (JSMore.pop (JSMore.split "/" filename)).

Definition traversalIndicators (filename : string) : list string :=
  [ "permission denied"; "file exists"; "already exists"; "overwrite";
    last_segment filename ].

Definition traversed (endpoint filename : string) : Finding :=
  {| severity := critical;
     title := "Path Traversal in File Upload";
     description := "Filename path traversal may be possible at " +:+
                    JS.DQ +:+ endpoint +:+ JS.DQ;
     url := endpoint;
     payload := None;
     evidence := Some ("Filename: " +:+ filename);
     cwe := Some "CWE-22";
     owasp := Some "A01:2021 - Broken Access Control";
     recommendation := "Sanitize filenames and validate upload paths" |}.

(** The body of the inner loop of the file-name test. *)
Definition filename_attempt (endpoint filename : string) : M Flow :=
  try_catch
    (suffix ← random_suffix;
     let boundary := "----WebKitFormBoundary" +:+ suffix in
     response ← fetch (upload endpoint boundary filename "text/plain" "test content");
     responseBody ← await (text response);
     for_of (traversalIndicators filename) (λ indicator,
       if JS.includes (JS.toLowerCase responseBody) (JS.toLowerCase indicator) then
         add_finding (traversed endpoint filename);;
         mret Break
       else mret Next);;
     mret Next)
    (λ _, mret Next).


End UploadMore.

(** ** What the other tests leave behind *)

(** The text of the summary for six numbers. *)
Definition summary_text (c h m l i t : nat) : string :=
  "DAST Scan Summary" +:+ JS.LF +:+
  "=================" +:+ JS.LF +:+
  "Critical: " +:+ JS.num c +:+ JS.LF +:+
  "High:     " +:+ JS.num h +:+ JS.LF +:+
  "Medium:   " +:+ JS.num m +:+ JS.LF +:+
  "Low:      " +:+ JS.num l +:+ JS.LF +:+
  "Info:     " +:+ JS.num i +:+ JS.LF +:+
  "Total:    " +:+ JS.num t.

(** ** What a test leaves behind *)

(** No character of the string is white space. *)
Fixpoint solid (s : string) : bool :=
  match s with
  | EmptyString => true
  | String c s' => negb (JS.is_ws c) && solid s'
  end.


(** The request of one path-traversal attempt. *)
Definition probe (baseUrl payload : string) : Request :=
  get_request (PathTraversal.testUrl baseUrl payload) 10000.

(** The requests of the whole path-traversal test, in the order of the
    loops. *)
Definition probes (payloads : list string) : list Request :=
  concat ((λ baseUrl, probe baseUrl <$> take 5 payloads) <$> PathTraversal.testUrls).

(** The boundary drawn for the upload sent from the world [w]. *)
Definition boundary_at (env : Env) (w : World) : string :=
  "----WebKitFormBoundary" +:+ random env (length (sent w)).




(** The three issues of a cookie without any protection. *)
Definition all_three : list string :=
  [ "Missing Secure flag"; "Missing HttpOnly flag on sensitive cookie";
    "Missing or lax SameSite attribute" ].

(** ** Targets to run the probes against *)

(** A target that serves the password file, and more, for any request. *)
Definition leaky_body : string :=
  "root:x:0:0:root:/root:/bin/bash" +:+ JS.LF +:+
  "daemon:x:1:1:daemon:/usr/sbin:/usr/sbin/nologin" +:+ JS.LF +:+ "DEBUG LOG".

Definition leaky_response : Response :=
  {| status := 200; headers := ∅; text := Ok leaky_body |}.

Definition leaky : Env :=
  {| net := λ _ _, Ok leaky_response; goto := λ url, Ok url; forms := [];
     cookies := []; random := λ _, "x" |}.

(** A target that allows every origin, with credentials. *)
Definition wildcard_response : Response :=
  {| status := 200;
     headers := {[ "access-control-allow-origin" := "*";
                   "access-control-allow-credentials" := "true" ]};
     text := Ok "" |}.

Definition wildcard : Env :=
  {| net := λ _ _, Ok wildcard_response; goto := λ url, Ok url; forms := [];
     cookies := []; random := λ _, "x" |}.

(** A shop served over HTTPS that sets one unprotected session cookie. *)
Definition session_cookie : Cookie :=
  {| name := "session_id"; secure := false; httpOnly := false;
     sameSite := Some SameSiteNone |}.

Definition shop : Env :=
  {| net := λ _ _, Throw "ECONNREFUSED";
     goto := λ url, Ok ("https://shop.example" +:+ url);
     forms := []; cookies := [session_cookie]; random := λ _, "x" |}.

Definition on_shop : World :=
  {| reporter := new; sent := []; page_url := "https://shop.example/" |}.

(** Three findings to feed a reporter. *)
Definition sample (sev : Severity) (title : string) : Finding :=
  {| severity := sev; title := title; description := "found"; url := "/";
     payload := None; evidence := None; cwe := None; owasp := None;
     recommendation := "fix" |}.

Definition session : list Call :=
  [ CallAddFinding (sample high "first"); CallAddFinding (sample low "second");
    CallGetFindings; CallAddFinding (sample high "third"); CallGenerateSummary ].

(** A target that cannot be reached. *)
Definition offline : Env :=
  {| net := λ _ _, Throw "ECONNREFUSED"; goto := λ _, Throw "ERR_CONNECTION_REFUSED";
     forms := []; cookies := []; random := λ _, "x" |}.

(** A target that accepts every upload and then times out on every
    other request. *)
Definition accepting : Env :=
  {| net := λ _ req,
       if bool_decide (method req = "POST")
       then Ok {| status := 200; headers := ∅; text := Ok "ok" |}
       else Throw "ETIMEDOUT";
     goto := λ url, Ok url; forms := []; cookies := []; random := λ _, "x" |}.

(** A regular-expression engine that never finds an address. *)
Definition no_urls : RegExp.t → string → list string := λ _ _, [].

(** ** Snapshots of the authentication file *)

(** The file written one second, and 100 minutes, before the instant
    1700000000000. *)
Definition fresh_fs : gmap string Qc :=
  {[ AuthSetup.authFile := AuthSetup.ms 1699999999000 ]}.

Definition stale_fs : gmap string Qc :=
  {[ AuthSetup.authFile := AuthSetup.ms 1699994000000 ]}.

(** ** Pages and responses for the helpers *)

(** The [href] attributes of a page with a repeated link, an anchor, a
    script link and an empty address. *)
Definition some_links : list (option string) :=
  [ Some "/cart"; Some "#top"; Some "/cart"; Some "javascript:void(0)";
    Some ""; None; Some "/login" ].

(** A response that sets one of the seven headers, and one of them to
    the empty string. *)
Definition thin_response : Scan.HeaderSource :=
  {| Scan.hs_headers := {[ "x-frame-options" := "DENY"; "referrer-policy" := "" ]};
     Scan.hs_url := "https://shop.example/" |}.


(** ** Counting what a test sends and finds *)

(** What a stretch of a test did to the world, in full: it sent the
    requests [reqs], appended the findings [new], both in this order, and
    left the page where it was. *)
Definition steps (reqs : list Request) (new : list Finding) (w w' : World) : Prop :=
  sent w' = sent w ++ reqs
  ∧ getFindings (reporter w') = getFindings (reporter w) ++ new
  ∧ page_url w' = page_url w.

(** The atoms of a pattern that is a plain text. *)
Definition lits (text : string) : list RegExp.Atom :=
  RegExp.Lit <$> String.list_ascii_of_string text.

(** How a pattern sees a text: under the [i] flag, in lower case. *)
Definition canon (ic : bool) (s : string) : string :=
  if ic then JS.toLowerCase s else s.

(** Some pattern of the path-traversal probe matches the body. *)
Definition fires (body : string) : bool :=
  existsb (λ pattern, RegExp.test pattern body) PathTraversal.sensitiveFilePatterns.

(** The body of a response as the path-traversal tests read it: the empty
    string when it cannot be read. *)
Definition body_or_empty (response : Response) : string :=
  match text response with Ok body => body | Throw _ => "" end.





(** A target that answers every request with a server error whose body
    is a stack trace. *)
Definition failing_response : Response :=
  {| status := 500; headers := ∅;
     text := Ok "DEBUG: at Server.handle (root:x:0:0:)" |}.

Definition failing : Env :=
  {| net := λ _ _, Ok failing_response; goto := λ url, Ok url; forms := [];
     cookies := []; random := λ _, "x" |}.

(** The findings of one CORS attempt for the headers of its response. *)
Definition cors_findings (endpoint origin : string) (response : Response)
    : list Finding :=
  let acao := headers response !! "access-control-allow-origin" in
  let acac := headers response !! "access-control-allow-credentials" in
  (if bool_decide (acao = Some "*") then [Cors.permissive endpoint] else [])
  ++ (if bool_decide (acao = Some origin) && bool_decide (acac = Some "true")
      then [Cors.reflected endpoint origin origin "true"] else [])
  ++ (if bool_decide (acao = Some "null") then [Cors.null_origin endpoint] else []).







(** A target that reflects the origin [null] with credentials. *)
Definition reflecting_response : Response :=
  {| status := 200;
     headers := {[ "access-control-allow-origin" := "null";
                   "access-control-allow-credentials" := "true" ]};
     text := Ok "" |}.

Definition reflecting : Env :=
  {| net := λ _ _, Ok reflecting_response; goto := λ url, Ok url; forms := [];
     cookies := []; random := λ _, "x" |}.



(** A target that names its server software. *)
Definition chatty_response : Response :=
  {| status := 200;
     headers := {[ "server" := "nginx/1.18.0"; "x-powered-by" := "" ]};
     text := Ok "" |}.

Definition chatty : Env :=
  {| net := λ _ _, Ok chatty_response; goto := λ url, Ok url; forms := [];
     cookies := []; random := λ _, "x" |}.



(** A cookie with every protection. *)
Definition safe_cookie : Cookie :=
  {| name := "session_id"; secure := true; httpOnly := true;
     sameSite := Some Strict |}.

(** The shop, serving the protected cookie and a tracking cookie without
    [SameSite]. *)
Definition careful_shop : Env :=
  {| net := λ _ _, Throw "ECONNREFUSED";
     goto := λ url, Ok ("https://shop.example" +:+ url);
     forms := [];
     cookies := [ safe_cookie;
                  {| name := "theme"; secure := true; httpOnly := false;
                     sameSite := None |} ];
     random := λ _, "x" |}.

(** The upload probe reports the upload as accepted. *)
Definition accept_cond (file : FileUpload.File) (status : Z) (body : string) : bool :=
  FileUpload.isSuccess file status body
  && (bool_decide (FileUpload.risk file = critical)
      || bool_decide (FileUpload.risk file = high)).

(** A target that refuses every upload with status 403 and names the
    file in its answer. *)
Definition refusing : Env :=
  {| net := λ _ req,
       if bool_decide (method req = "POST")
       then Ok {| status := 403; headers := ∅;
                  text := Ok "Rejected: SHELL.PHP is not an image" |}
       else Throw "ETIMEDOUT";
     goto := λ url, Ok url; forms := []; cookies := []; random := λ _, "x" |}.

(** A page with two upload forms posting to the same address and one
    without an action. *)
Definition upload_page : list Form :=
  [ {| enctype := Some "multipart/form-data"; action := Some "/api/files";
       form_method := Some "post" |};
    {| enctype := Some "multipart/form-data"; action := Some "/avatar";
       form_method := None |};
    {| enctype := Some "multipart/form-data"; action := None;
       form_method := None |};
    {| enctype := None; action := Some "/search"; form_method := Some "get" |} ].

(** The first of the malicious files. *)
Definition php_shell : FileUpload.File :=
  {| FileUpload.file_name := "shell.php";
     FileUpload.content := "<?php system($_GET[" +:+ JS.DQ +:+ "cmd" +:+ JS.DQ +:+ "]); ?>";
     FileUpload.type := "application/x-php";
     FileUpload.risk := critical |}.

(** The default addresses under which the probe looks for a stored file. *)
Definition default_locations (filename : string) : list string :=
  [ "/uploads/" +:+ filename; "/files/" +:+ filename; "/attachments/" +:+ filename ].





(** A target that answers every upload with status 400 and repeats the
    file name. *)
Definition echoing : Env :=
  {| net := λ _ _, Ok {| status := 400; headers := ∅;
                         text := Ok "Invalid file name: ../../../etc/passwd" |};
     goto := λ url, Ok url; forms := []; cookies := []; random := λ _, "x" |}.



Definition name_upload (env : Env) (w : World) (endpoint filename : string) : Request :=
  UploadMore.upload endpoint (boundary_at env w) filename "text/plain" "test content".

(** Some indicator of the file-name test occurs in the body. *)
Definition indicated (filename body : string) : bool :=
  existsb (λ indicator,
    JS.includes (JS.toLowerCase body) (JS.toLowerCase indicator))
    (UploadMore.traversalIndicators filename).

(** * Properties *)

(** ** Strings *)

Section strings.

Lemma app_cons c (s t : string) : String c s +:+ t = String c (s +:+ t).
Proof. reflexivity. Qed.

Lemma app_empty_l (t : string) : "" +:+ t = t.
Proof. reflexivity. Qed.

Lemma prefix_app (p s : string) : String.prefix p (p +:+ s) = true.
Proof.
  induction p as [|c p IH]; [by destruct s|].
  rewrite app_cons. simpl. by destruct (ascii_dec c c).
Qed.

Lemma trimEnd_solid s : solid s = true → JS.trimEnd s = s.
Proof.
  induction s as [|c s IH]; [done|]. simpl.
  intros [Hc Hs]%andb_true_iff. rewrite (IH Hs).
  apply negb_true_iff in Hc. by rewrite Hc.
Qed.

Lemma trimEnd_app_blank (s w : string) :
  JS.trimEnd w = "" → JS.trimEnd (s +:+ w) = JS.trimEnd s.
Proof.
  intros Hw. induction s as [|c s IH]; [done|].
  rewrite app_cons. simpl. by rewrite IH.
Qed.

Lemma trimEnd_app_keep (s t : string) :
  JS.trimEnd t ≠ "" → JS.trimEnd (s +:+ t) = s +:+ JS.trimEnd t.
Proof.
  intros Ht. induction s as [|c s IH]; [done|].
  rewrite !app_cons. simpl. rewrite IH.
  destruct (s +:+ JS.trimEnd t) eqn:E; [|by rewrite andb_false_r].
  destruct s; [|done]. by rewrite app_empty_l in E.
Qed.

Lemma pretty_N_go_solid (x : N) (s : string) :
  solid s = true → s ≠ "" →
  solid (pretty_N_go x s) = true ∧ pretty_N_go x s ≠ "".
Proof.
  revert s. induction (N.lt_wf_0 x) as [x _ IH]; intros s Hs Hne.
  destruct (decide (x = 0)%N) as [->|Hx]; [by rewrite pretty_N_go_0|].
  rewrite pretty_N_go_step by lia.
  apply IH; [apply N.div_lt; lia| |done].
  simpl. rewrite Hs, andb_true_r.
  unfold pretty_N_char. by repeat case_match.
Qed.

Lemma num_solid (n : nat) : solid (JS.num n) = true ∧ JS.num n ≠ "".
Proof.
  unfold JS.num, pretty, pretty_nat, pretty, pretty_N.
  case_decide as Hn; [done|].
  rewrite pretty_N_go_step by lia.
  apply pretty_N_go_solid; [|done].
  simpl. unfold pretty_N_char. by repeat case_match.
Qed.

Lemma trimEnd_num_blank (n : nat) (w : string) :
  JS.trimEnd w = "" → JS.trimEnd (JS.num n +:+ w) = JS.num n.
Proof.
  intros Hw. rewrite trimEnd_app_blank by done.
  apply trimEnd_solid, num_solid.
Qed.

End strings.

(** ** The reporter *)

Section reporter.

Implicit Types (r : DASTReporter) (f : Finding) (sev : Severity) (cs : list Call).

Lemma run_snoc cs c r : run (cs ++ [c]) r = snd (call c (run cs r)).
Proof. unfold run. by rewrite foldl_app. Qed.

Lemma added_snoc cs c :
  added (cs ++ [c]) =
  added cs ++ match c with CallAddFinding f => [f] | _ => [] end.
Proof. unfold added. rewrite omap_app. by destruct c. Qed.

(** The stored sequence is the arguments of the [addFinding] calls, in
    the order of the calls. *)
Lemma run_findings cs r : findings (run cs r) = findings r ++ added cs.
Proof.
  induction cs as [|c cs IH] using rev_ind.
  - by rewrite app_nil_r.
  - rewrite run_snoc, added_snoc, app_assoc, <-IH.
    destruct c; simpl; by rewrite ?app_nil_r.
Qed.

Lemma added_length cs : length (added cs) = length (filter (λ c, is_add c = true) cs).
Proof.
  induction cs as [|c cs IH]; [done|].
  destruct c; simpl; rewrite ?filter_cons_True, ?filter_cons_False by done;
    simpl; auto.
Qed.

Lemma added_adds (fs : list Finding) : added (CallAddFinding <$> fs) = fs.
Proof. induction fs as [|f fs IH]; [done|]. unfold added in *. simpl. f_equal. exact IH. Qed.

(** Every state of the reporter is reached from a fresh reporter by
    [addFinding] calls alone. *)
Lemma reachable r : run (CallAddFinding <$> findings r) new = r.
Proof.
  destruct r as [fs]. simpl.
  assert (findings (run (CallAddFinding <$> fs) new) = fs) as E
    by (by rewrite run_findings, added_adds).
  by destruct (run _ _) as [fs']; simpl in E; subst.
Qed.

(** The findings split by severity: the parts for the five levels
    rearrange to the whole. *)
Lemma split_by_severity (fs : list Finding) :
  concat ((λ sev, filter (λ f, severity f = sev) fs) <$> severities) ≡ₚ fs.
Proof.
  induction fs as [|f fs IH]; [done|].
  unfold severities in *. simpl in *. rewrite !app_nil_r in *.
  destruct (severity f) eqn:E;
    rewrite !filter_cons, E; repeat case_decide; try done; simpl;
    rewrite <-?Permutation_middle; by rewrite IH.
Qed.

Lemma severity_counts_total r :
  sum_list ((λ s, length (getFindingsBySeverity s r)) <$> severities)
    = length (getFindings r).
Proof.
  unfold getFindingsBySeverity, getFindings.
  etrans; [|apply Permutation_length, (split_by_severity (findings r))].
  unfold severities. simpl. rewrite !length_app. simpl. lia.
Qed.

(** C1: [getFindingsBySeverity(S)] is the subsequence of [getFindings()]
    made of exactly the findings of severity [S], and the results for the
    five severities partition [getFindings()]: together they rearrange to
    it, so nothing is omitted or duplicated, their lengths add up to its
    length, and every finding lies in the result of one severity only. *)
Theorem getFindingsBySeverity_partition cs sev :
  let r := run cs new in
  getFindingsBySeverity sev r = filter (λ f, severity f = sev) (getFindings r)
  ∧ getFindingsBySeverity sev r `sublist_of` getFindings r
  ∧ (∀ f, f ∈ getFindingsBySeverity sev r ↔ f ∈ getFindings r ∧ severity f = sev)
  ∧ (∀ i f, getFindings r !! i = Some f → severity f = sev →
       ∃ j, getFindingsBySeverity sev r !! j = Some f
            ∧ j = length (getFindingsBySeverity sev (run (take i (CallAddFinding <$> getFindings r)) new)))
  ∧ concat ((λ s, getFindingsBySeverity s r) <$> severities) ≡ₚ getFindings r
  ∧ sum_list ((λ s, length (getFindingsBySeverity s r)) <$> severities)
      = length (getFindings r)
  ∧ (∀ f, f ∈ getFindings r →
       ∀ s, s ∈ severities → (f ∈ getFindingsBySeverity s r ↔ s = severity f)).
Proof.
  intros r. pose proof (severity_counts_total r) as Htotal.
  unfold getFindingsBySeverity, getFindings in *.
  split_and!.
  - done.
  - apply sublist_filter.
  - intros f. by rewrite list_elem_of_filter, (comm and).
  - intros i f Hi Hsev. eexists. split; [|done].
    rewrite run_findings, <-fmap_take, added_adds. simpl.
    pose proof (take_drop_middle _ _ _ Hi) as E.
    set (pre := take i (findings r)) in *.
    rewrite <-E, filter_app, filter_cons_True by done.
    by rewrite lookup_app_r, Nat.sub_diag.
  - apply split_by_severity.
  - exact Htotal.
  - intros f Hf s _. rewrite list_elem_of_filter.
    split; [by intros [<- _]|by intros ->].
Qed.

Lemma getFindingsBySeverity_partition_witness :
  ∃ j, getFindingsBySeverity high (run session new) !! j = Some (sample high "third")
       ∧ j = 1.
Proof.
  exact (proj1 (proj2 (proj2 (proj2 (getFindingsBySeverity_partition session high))))
           2 (sample high "third") eq_refl eq_refl).
Defined.

(** C7: [addFinding] appends its argument at the end and leaves the
    stored findings where they were; the same finding added twice is
    stored twice; the call never fails or rejects; no method shortens
    the sequence, whose length is the number of [addFinding] calls. *)
Theorem addFinding_appends cs f :
  let r := run cs new in
  getFindings (addFinding f r) = getFindings r ++ [f]
  ∧ (∀ i, i < length (getFindings r) →
       getFindings (addFinding f r) !! i = getFindings r !! i)
  ∧ getFindings (addFinding f (addFinding f r)) = getFindings r ++ [f; f]
  ∧ call (CallAddFinding f) r = (VUndefined, addFinding f r)
  ∧ (∀ c, getFindings r `prefix_of` getFindings (snd (call c r)))
  ∧ getFindings r = added cs
  ∧ length (getFindings r) = length (filter (λ c, is_add c = true) cs).
Proof.
  intros r. unfold getFindings. split_and!.
  - done.
  - intros i Hi. simpl. by rewrite lookup_app_l.
  - simpl. by rewrite <-app_assoc.
  - done.
  - intros c. destruct c; simpl; try done. by apply prefix_app_r.
  - unfold r. by rewrite run_findings.
  - unfold r. rewrite run_findings. simpl. apply added_length.
Qed.

Lemma addFinding_appends_witness :
  getFindings (addFinding (sample info "fourth") (run session new)) !! 2
  = Some (sample high "third").
Proof.
  exact (proj1 (proj2 (addFinding_appends session (sample info "fourth")))
           2 ltac:(vm_compute; lia)).
Defined.

(** C9: after any sequence of calls on a fresh reporter, [hasFindings()]
    is true exactly when [getFindings()] is not empty, that is, exactly
    when [addFinding] has been called at least once. *)
Theorem hasFindings_iff cs :
  let r := run cs new in
  (hasFindings r = true ↔ 0 < length (getFindings r))
  ∧ (hasFindings r = true ↔ ∃ c, c ∈ cs ∧ is_add c = true)
  ∧ hasFindings new = false.
Proof.
  intros r. unfold hasFindings, getFindings. split_and!.
  - apply Nat.ltb_lt.
  - rewrite Nat.ltb_lt. unfold r. rewrite run_findings. simpl.
    rewrite added_length.
    split.
    + intros Hlen. destruct (filter _ cs) as [|c l] eqn:E; [simpl in Hlen; lia|].
      assert (c ∈ filter (λ c, is_add c = true) cs) as Hc by (rewrite E; left).
      apply list_elem_of_filter in Hc as [Hadd Hc]. eauto.
    + intros (c & Hc & Hadd).
      assert (c ∈ filter (λ c, is_add c = true) cs) as Hin
        by (by apply list_elem_of_filter).
      destruct (filter _ cs); [by apply not_elem_of_nil in Hin|simpl; lia].
  - done.
Qed.

Lemma queries_frame (qs : list Call) r :
  Forall (λ c, is_add c = false) qs → run qs r = r.
Proof.
  induction 1 as [|c qs Hc _ IH] in r |- *; [done|].
  unfold run in *. simpl. destruct c; try done; simpl; apply IH.
Qed.

(** C10: the four query methods leave the stored collection as it was,
    and [getFindings()] called twice in a row, or with other queries in
    between, returns the same sequence. *)
Theorem queries_read_only cs :
  let r := run cs new in
  snd (call CallGetFindings r) = r
  ∧ (∀ sev, snd (call (CallGetFindingsBySeverity sev) r) = r)
  ∧ snd (call CallHasFindings r) = r
  ∧ snd (call CallGenerateSummary r) = r
  ∧ fst (call CallGetFindings (snd (call CallGetFindings r)))
      = fst (call CallGetFindings r)
  ∧ (∀ q1 q2, is_add q1 = false → is_add q2 = false →
       fst (call CallGetFindings (run [q1; q2] r)) = fst (call CallGetFindings r)).
Proof.
  intros r. split_and!; try done.
  intros q1 q2 H1 H2. rewrite queries_frame; [done|]. by repeat constructor.
Qed.

Lemma queries_read_only_witness :
  fst (call CallGetFindings (run [CallHasFindings; CallGenerateSummary] (run session new)))
  = fst (call CallGetFindings (run session new)).
Proof.
  exact (proj2 (proj2 (proj2 (proj2 (proj2 (queries_read_only session)))))
           CallHasFindings CallGenerateSummary eq_refl eq_refl).
Defined.

Lemma trimStart_template (s : string) :
  JS.trimStart (JS.LF +:+ "DAST Scan Summary" +:+ s) = "DAST Scan Summary" +:+ s.
Proof. reflexivity. Qed.

Lemma trimEnd_app_nonempty (s t : string) :
  JS.trimEnd t ≠ "" → JS.trimEnd (s +:+ t) ≠ "".
Proof.
  intros Ht. rewrite trimEnd_app_keep by done.
  destruct s; [by rewrite app_empty_l|done].
Qed.

Local Ltac keep_tail :=
  repeat first
    [ rewrite trimEnd_num_blank by reflexivity; apply num_solid
    | apply trimEnd_app_nonempty ].

(** C2: the summary is the fixed text with, in the order critical, high,
    medium, low, info, the length of [getFindingsBySeverity] for that
    level, then as Total the length of [getFindings()], which is the sum
    of the five; it is made of these six numbers and nothing else of the
    findings. *)
Theorem generateSummary_counts cs :
  let r := run cs new in
  let count sev := length (getFindingsBySeverity sev r) in
  generateSummary r =
    "DAST Scan Summary" +:+ JS.LF +:+
    "=================" +:+ JS.LF +:+
    "Critical: " +:+ JS.num (count critical) +:+ JS.LF +:+
    "High:     " +:+ JS.num (count high) +:+ JS.LF +:+
    "Medium:   " +:+ JS.num (count medium) +:+ JS.LF +:+
    "Low:      " +:+ JS.num (count low) +:+ JS.LF +:+
    "Info:     " +:+ JS.num (count info) +:+ JS.LF +:+
    "Total:    " +:+ JS.num (length (getFindings r))
  ∧ length (getFindings r) =
      count critical + count high + count medium + count low + count info.
Proof.
  intros r count. split.
  - unfold generateSummary, JS.trim. fold (count critical) (count high)
      (count medium) (count low) (count info).
    rewrite trimStart_template.
    repeat (rewrite trimEnd_app_keep by keep_tail).
    by rewrite trimEnd_num_blank.
  - rewrite <-(severity_counts_total r). unfold severities, count. simpl. lia.
Qed.

End reporter.

(** ** The authentication gate *)

Section auth.
Import AuthSetup.

Implicit Types (fs : gmap string Qc) (now : Z) (mtime : Qc).

Lemma verify_absent fs now :
  fs !! authFile = None → verify fs now = Thrown absent_message.
Proof.
  intros H. unfold verify, existsSync. rewrite H.
  by rewrite bool_decide_eq_false_2 by (by intros [? ?]).
Qed.

Lemma verify_present fs now mtime :
  fs !! authFile = Some mtime →
  verify fs now =
    if bool_decide (ms authExpiryMs ≤ ms now - mtime)%Qc then Thrown expired_message
    else Passed (using_stored (ms now - mtime)).
Proof.
  intros H. unfold verify, existsSync, statSync. rewrite H.
  by rewrite bool_decide_eq_true_2 by eauto.
Qed.

Lemma age_of now (age : Qc) : (ms now - (ms now - age) = age)%Qc.
Proof. ring. Qed.

(** C3: the gate has three outcomes.  Without the snapshot file it
    throws the 'No authentication found' error; with a file younger than
    60 minutes it passes, as at 59 minutes; with a file of 60 minutes or
    more it throws the 'Authentication expired' error, as at 61 minutes
    and at exactly 60 minutes. *)
Theorem auth_gate_outcomes fs now :
  (fs !! authFile = None → verify fs now = Thrown absent_message)
  ∧ (∀ mtime, fs !! authFile = Some mtime → (ms now - mtime < minutes 60)%Qc →
       verify fs now = Passed (using_stored (ms now - mtime)))
  ∧ (∀ mtime, fs !! authFile = Some mtime → (minutes 60 ≤ ms now - mtime)%Qc →
       verify fs now = Thrown expired_message)
  ∧ (verify fs now = Thrown absent_message
     ∨ verify fs now = Thrown expired_message
     ∨ ∃ log, verify fs now = Passed log)
  ∧ verify (<[authFile := (ms now - minutes 59)%Qc]> fs) now =
      Passed (JS.LF +:+ "✓ Using stored authentication (age: 59 minutes)")
  ∧ verify (<[authFile := (ms now - minutes 61)%Qc]> fs) now = Thrown expired_message
  ∧ verify (<[authFile := (ms now - minutes 60)%Qc]> fs) now = Thrown expired_message
  ∧ verify (<[authFile := (ms now - minutes 60 + Q2Qc (1 # 2))%Qc]> fs) now =
      Passed (JS.LF +:+ "✓ Using stored authentication (age: 60 minutes)")
  ∧ absent_message ≠ expired_message.
Proof.
  split_and!.
  - apply verify_absent.
  - intros mtime H Hage. rewrite (verify_present _ _ _ H).
    rewrite bool_decide_eq_false_2; [done|]. by apply Qclt_not_le.
  - intros mtime H Hage. rewrite (verify_present _ _ _ H).
    by rewrite bool_decide_eq_true_2.
  - destruct (fs !! authFile) as [mtime|] eqn:H.
    + rewrite (verify_present _ _ _ H). case_bool_decide; eauto.
    + left. by apply verify_absent.
  - by rewrite (verify_present _ _ (ms now - minutes 59)%Qc), age_of
      by apply lookup_insert_eq.
  - by rewrite (verify_present _ _ (ms now - minutes 61)%Qc), age_of
      by apply lookup_insert_eq.
  - by rewrite (verify_present _ _ (ms now - minutes 60)%Qc), age_of
      by apply lookup_insert_eq.
  - rewrite (verify_present _ _ (ms now - minutes 60 + Q2Qc (1 # 2))%Qc)
      by apply lookup_insert_eq.
    by replace (ms now - (ms now - minutes 60 + Q2Qc (1 # 2)))%Qc
      with (minutes 60 - Q2Qc (1 # 2))%Qc by ring.
  - done.
Qed.

End auth.

(** ** Running the probes *)

Section monad.

Context {A B : Type}.
Implicit Types (env : Env) (w : World).

Lemma bind_ok (m : M A) (k : A → M B) env w a w' :
  m env w = (Ok a, w') → (m ≫= k) env w = k a env w'.
Proof. intros H. unfold mbind, M_bind. by rewrite H. Qed.


Lemma try_catch_ok (m : M A) (h : string → M A) env w a w' :
  m env w = (Ok a, w') → try_catch m h env w = (Ok a, w').
Proof. intros H. unfold try_catch. by rewrite H. Qed.


End monad.

Section loops.

Context {A : Type}.
Implicit Types (env : Env) (w : World).

Lemma for_of_next (body : A → M Flow) x xs env w w' :
  body x env w = (Ok Next, w') →
  for_of (x :: xs) body env w = for_of xs body env w'.
Proof. intros H. simpl. by rewrite (bind_ok _ _ _ _ _ _ H). Qed.

Lemma for_of_break (body : A → M Flow) x xs env w w' :
  body x env w = (Ok Break, w') →
  for_of (x :: xs) body env w = (Ok (), w').
Proof. intros H. simpl. by rewrite (bind_ok _ _ _ _ _ _ H). Qed.

End loops.

Section regexp.
Import RegExp.

Lemma search_here ic atoms (s : string) :
  match_here ic atoms s = true → search ic atoms s = true.
Proof. intros H. destruct s; simpl; by rewrite H. Qed.

Lemma search_app ic atoms (pre s : string) :
  match_here ic atoms s = true → search ic atoms (pre +:+ s) = true.
Proof.
  intros H. induction pre as [|c pre IH].
  - rewrite app_empty_l. by apply search_here.
  - rewrite app_cons. simpl. rewrite IH. apply orb_true_r.
Qed.

(** The first pattern of the probe finds the password-file signature
    wherever it stands in the body. *)
Lemma test_passwd (pre post : string) :
  test PathTraversal.passwd_pattern (pre +:+ "root:x:0:0:" +:+ post) = true.
Proof. unfold test. apply search_app. reflexivity. Qed.

End regexp.

Example compile_xml :
  RegExp.compile "<?xml" = [RegExp.Opt "<"; RegExp.Lit "x"; RegExp.Lit "m"; RegExp.Lit "l"].
Proof. reflexivity. Qed.

Example compile_boot :
  RegExp.compile "\[boot loader\]" =
  RegExp.Lit <$> ["["; "b"; "o"; "o"; "t"; " "; "l"; "o"; "a"; "d"; "e"; "r"; "]"]%char.
Proof. reflexivity. Qed.

Example test_xml_upper :
  RegExp.test {| RegExp.source := "<?xml"; RegExp.flags := "i" |} "a <?XML version" = true.
Proof. reflexivity. Qed.

Example test_log_case :
  RegExp.test {| RegExp.source := "LOG"; RegExp.flags := "" |} "catalog" = false.
Proof. reflexivity. Qed.

Example encode_backslash :
  JS.encodeURIComponent "..\..\win.ini a+b" = "..%5C..%5Cwin.ini%20a%2Bb".
Proof. reflexivity. Qed.

Example encode_passwd :
  JS.encodeURIComponent "../../etc/passwd" = "..%2F..%2Fetc%2Fpasswd".
Proof. reflexivity. Qed.

Section path_traversal.
Import PathTraversal.

Implicit Types (env : Env) (w : World).

(** C4: when the response to a test URL has status 200 and a body that
    contains [root:x:0:0:], the attempt appends one finding and no more,
    whatever else the body matches: it is critical, its CWE is CWE-22 and
    its URL is the base URL followed by the encoded payload. *)
Theorem path_traversal_passwd env w baseUrl payload response (pre post : string) :
  let url' := baseUrl +:+ JS.encodeURIComponent payload in
  let body := pre +:+ "root:x:0:0:" +:+ post in
  net env (length (sent w)) (get_request url' 10000) = Ok response →
  status response = 200%Z →
  text response = Ok body →
  ∃ f,
    attempt baseUrl payload env w
      = (Ok Next, after_finding f (after_request (get_request url' 10000) w))
    ∧ getFindings (reporter (snd (attempt baseUrl payload env w)))
        = getFindings (reporter w) ++ [f]
    ∧ severity f = critical
    ∧ cwe f = Some "CWE-22"
    ∧ url f = url'
    ∧ Helpers.payload f = Some payload
    ∧ evidence f = Some "Sensitive content pattern matched: /root:x:0:0:/".
Proof.
  intros url' body Hnet Hstatus Htext.
  exists (finding url' payload passwd_pattern).
  assert (attempt baseUrl payload env w = (Ok Next,
    after_finding (finding url' payload passwd_pattern)
      (after_request (get_request url' 10000) w))) as E.
  { unfold attempt, testUrl. fold url'.
    apply try_catch_ok.
    erewrite bind_ok; [|unfold get, fetch; by rewrite Hnet].
    cbv beta zeta. rewrite Htext, Hstatus.
    erewrite bind_ok; [|reflexivity].
    assert ((0 <? String.length body) = true) as ->.
    { apply Nat.ltb_lt. unfold body. clear.
      induction pre as [|c pre IH]; [rewrite app_empty_l|rewrite app_cons];
        simpl; lia. }
    erewrite bind_ok; [reflexivity|].
    unfold when. change ((200 =? 200)%Z && true) with true. cbv iota.
    unfold sensitiveFilePatterns. apply for_of_break.
    unfold body. by rewrite (test_passwd pre post). }
  rewrite E. by split_and!.
Qed.

End path_traversal.

Section path_traversal_scenario.
Import PathTraversal.

Lemma path_traversal_passwd_witness :
  ∃ f,
    attempt "/?file=" "../../etc/passwd" leaky start
      = (Ok Next, after_finding f
           (after_request (get_request "/?file=..%2F..%2Fetc%2Fpasswd" 10000) start))
    ∧ getFindings (reporter (snd (attempt "/?file=" "../../etc/passwd" leaky start)))
        = getFindings (reporter start) ++ [f]
    ∧ severity f = critical
    ∧ cwe f = Some "CWE-22"
    ∧ url f = "/?file=..%2F..%2Fetc%2Fpasswd"
    ∧ Helpers.payload f = Some "../../etc/passwd"
    ∧ evidence f = Some "Sensitive content pattern matched: /root:x:0:0:/".
Proof.
  apply (path_traversal_passwd leaky start "/?file=" "../../etc/passwd"
           leaky_response ""
           (String.substring 11 200 leaky_body)); reflexivity.
Defined.

End path_traversal_scenario.

Section cors.
Import Cors.

Implicit Types (env : Env) (w : World).

Lemma testOrigins_not_star origin : origin ∈ testOrigins → origin ≠ "*".
Proof.
  intros H ->. revert H. change ("*" ∉ testOrigins).
  by apply (bool_decide_unpack _).
Qed.

(** C5: for any endpoint and any of the tested origins, a response whose
    [access-control-allow-origin] header is [*] makes the attempt append
    one finding, of severity high and titled 'Overly Permissive CORS';
    the endpoint only shows in the URL of the finding. *)
Theorem cors_permissive env w endpoint origin response :
  origin ∈ testOrigins →
  net env (length (sent w)) (probe_request endpoint origin) = Ok response →
  headers response !! "access-control-allow-origin" = Some "*" →
  ∃ f,
    attempt endpoint origin env w
      = (Ok Next, after_finding f (after_request (probe_request endpoint origin) w))
    ∧ getFindings (reporter (snd (attempt endpoint origin env w)))
        = getFindings (reporter w) ++ [f]
    ∧ severity f = high
    ∧ title f = "Overly Permissive CORS"
    ∧ url f = endpoint
    ∧ f = permissive endpoint.
Proof.
  intros Horigin Hnet Hacao. exists (permissive endpoint).
  assert (attempt endpoint origin env w = (Ok Next,
    after_finding (permissive endpoint)
      (after_request (probe_request endpoint origin) w))) as E.
  { unfold attempt. apply try_catch_ok.
    erewrite bind_ok; [|unfold fetch; by rewrite Hnet].
    cbv beta zeta. rewrite Hacao.
    rewrite (bool_decide_eq_true_2 (Some "*" = Some "*")) by done.
    rewrite (bool_decide_eq_false_2 (Some "*" = Some origin)).
    2:{ intros [= <-]. by apply (testOrigins_not_star "*"). }
    reflexivity. }
  rewrite E. by split_and!.
Qed.

Lemma cors_permissive_witness :
  ∃ f,
    attempt "/api/user" "https://evil.com" wildcard start
      = (Ok Next, after_finding f
           (after_request (probe_request "/api/user" "https://evil.com") start))
    ∧ getFindings (reporter (snd (attempt "/api/user" "https://evil.com" wildcard start)))
        = getFindings (reporter start) ++ [f]
    ∧ severity f = high
    ∧ title f = "Overly Permissive CORS"
    ∧ url f = "/api/user"
    ∧ f = permissive "/api/user".
Proof.
  apply (cors_permissive wildcard start "/api/user" "https://evil.com"
           wildcard_response).
  - by apply (bool_decide_unpack _).
  - reflexivity.
  - by vm_compute.
Defined.

End cors.

Section cookies.
Import SecurityHeaders.

Implicit Types (env : Env) (w : World) (cookie : Cookie).

Lemma startsWith_app (p s : string) : JS.startsWith (p +:+ s) p = true.
Proof. apply prefix_app. Qed.

(** C6: on a page whose address starts with [https://], the cookie
    [session_id] with [secure] and [httpOnly] false and [sameSite] None
    gets one finding, of severity medium, whose evidence lists the three
    missing protections. *)
Theorem cookie_session_id env w cookie (rest : string) :
  page_url w = "https://" +:+ rest →
  name cookie = "session_id" →
  secure cookie = false →
  httpOnly cookie = false →
  sameSite cookie = Some SameSiteNone →
  ∃ f,
    check_cookie cookie env w = (Ok Next, after_finding f w)
    ∧ getFindings (reporter (snd (check_cookie cookie env w)))
        = getFindings (reporter w) ++ [f]
    ∧ severity f = medium
    ∧ title f = "Insecure Cookie: session_id"
    ∧ evidence f = Some ("Missing Secure flag; " +:+
                         "Missing HttpOnly flag on sensitive cookie; " +:+
                         "Missing or lax SameSite attribute")
    ∧ url f = page_url w
    ∧ issues_of (page_url w) cookie = all_three.
Proof.
  intros Hurl Hname Hsecure HhttpOnly HsameSite.
  assert (issues_of (page_url w) cookie = all_three) as Hissues.
  { unfold issues_of, sensitive_name, lax_sameSite.
    by rewrite Hurl, startsWith_app, Hname, Hsecure, HhttpOnly, HsameSite. }
  exists (finding (page_url w) cookie all_three).
  assert (check_cookie cookie env w
          = (Ok Next, after_finding (finding (page_url w) cookie all_three) w)) as E.
  { unfold check_cookie.
    erewrite bind_ok; [|reflexivity]. rewrite Hissues.
    erewrite bind_ok; [reflexivity|].
    unfold when. simpl. by erewrite bind_ok. }
  rewrite E. unfold finding. rewrite Hname. by split_and!.
Qed.

Lemma cookie_session_id_witness :
  ∃ f,
    check_cookie session_cookie shop on_shop = (Ok Next, after_finding f on_shop)
    ∧ getFindings (reporter (snd (check_cookie session_cookie shop on_shop)))
        = getFindings (reporter on_shop) ++ [f]
    ∧ severity f = medium
    ∧ title f = "Insecure Cookie: session_id"
    ∧ evidence f = Some ("Missing Secure flag; " +:+
                         "Missing HttpOnly flag on sensitive cookie; " +:+
                         "Missing or lax SameSite attribute")
    ∧ url f = page_url on_shop
    ∧ issues_of (page_url on_shop) session_cookie = all_three.
Proof.
  apply (cookie_session_id shop on_shop session_cookie "shop.example/");
    reflexivity.
Defined.

(** The whole test on that browser: the page is reached, the one cookie
    is examined, and the reporter ends with the one finding. *)
Example check_cookie_flags_shop :
  check_cookie_flags shop start
  = (Ok (), after_finding (finding "https://shop.example/" session_cookie all_three)
              on_shop).
Proof. reflexivity. Qed.

End cookies.

(** ** Errors stay inside the attempt *)

Section loop_invariants.

Context {A : Type}.
Implicit Types (env : Env) (w : World) (body : A → M Flow).



End loop_invariants.

Section extends.

Implicit Types (w : World) (reqs : list Request).





End extends.

Section path_traversal_errors.
Import PathTraversal.

Implicit Types (env : Env) (w : World).





End path_traversal_errors.

Section upload_errors.
Import FileUpload.

Variable exec_all : RegExp.t → string → list string.

Implicit Types (env : Env) (w : World) (file : File).







End upload_errors.

Section contained.

Variable exec_all : RegExp.t → string → list string.

Implicit Types (env : Env) (w : World).








End contained.

Section scenarios.


(** Against the unreachable target the path-traversal test still sends
    its 13 x 2 requests and ends with an empty reporter. *)
Example check_url_parameters_offline :
  let payloads := ["../../etc/passwd"; "..%2f..%2fetc%2fpasswd"] in
  PathTraversal.check_url_parameters payloads offline start
  = (Ok (), {| reporter := new; sent := probes payloads; page_url := "about:blank" |}).
Proof. reflexivity. Qed.

(** An upload that is accepted is reported from its own response, also
    when every request for the stored file then times out: the failed
    requests add nothing. *)
Example upload_accepted_fetches_fail :
  ∃ file w',
    FileUpload.maliciousFiles !! 0 = Some file
    ∧ FileUpload.attempt no_urls "/upload" file accepting start = (Ok Next, w')
    ∧ getFindings (reporter w') = [FileUpload.accepted "/upload" file 200]
    ∧ target <$> sent w' =
        ["/upload"; "/uploads/shell.php"; "/files/shell.php"; "/attachments/shell.php"].
Proof. eexists _, _. split_and!; reflexivity. Qed.

(** The navigation that opens the upload test is outside every [try]:
    when it throws, the test stops before its first attempt. *)
Example check_unrestricted_upload_offline :
  FileUpload.check_unrestricted_upload no_urls offline start
  = (Throw "ERR_CONNECTION_REFUSED", start).
Proof. reflexivity. Qed.

Import AuthSetup.

Lemma auth_gate_outcomes_witness :
  verify ∅ 1700000000000 = Thrown absent_message
  ∧ verify {[ authFile := ms 1699999999000 ]} 1700000000000
    = Passed (JS.LF +:+ "✓ Using stored authentication (age: 0 minutes)")
  ∧ verify {[ authFile := ms 1699990000000 ]} 1700000000000 = Thrown expired_message.
Proof.
  split_and!.
  - exact (proj1 (auth_gate_outcomes ∅ 1700000000000) eq_refl).
  - exact (proj1 (proj2 (auth_gate_outcomes {[ authFile := ms 1699999999000 ]}
                           1700000000000)) (ms 1699999999000) eq_refl eq_refl).
  - exact (proj1 (proj2 (proj2 (auth_gate_outcomes {[ authFile := ms 1699990000000 ]}
                                  1700000000000))) (ms 1699990000000) eq_refl
             ltac:(vm_compute; discriminate)).
Defined.

End scenarios.

(** * More of the code *)

(** ** The reporter, continued *)

Section reporter_more.

Implicit Types (r : DASTReporter) (f : Finding) (sev : Severity).

(** X1: a finding added to the reporter shows at the end of the view of
    its own severity and in no other view, so one count grows by one and
    the others stay; after it [hasFindings()] is true. *)
Theorem addFinding_views r f :
  getFindingsBySeverity (severity f) (addFinding f r)
    = getFindingsBySeverity (severity f) r ++ [f]
  ∧ (∀ sev, sev ≠ severity f →
       getFindingsBySeverity sev (addFinding f r) = getFindingsBySeverity sev r)
  ∧ hasFindings (addFinding f r) = true.
Proof.
  unfold getFindingsBySeverity, hasFindings, addFinding. simpl. split_and!.
  - by rewrite filter_app, filter_cons_True.
  - intros sev Hsev. rewrite filter_app, filter_cons_False by done.
    by rewrite app_nil_r.
  - rewrite length_app. simpl. apply Nat.ltb_lt. lia.
Qed.

Lemma addFinding_views_witness :
  getFindingsBySeverity low (addFinding (sample high "new") (run session new))
  = getFindingsBySeverity low (run session new).
Proof.
  exact (proj1 (proj2 (addFinding_views (run session new) (sample high "new")))
           low ltac:(discriminate)).
Defined.

Local Ltac keep_total :=
  repeat first
    [ rewrite trimEnd_num_blank by reflexivity; apply num_solid
    | apply trimEnd_app_nonempty ].

Lemma generateSummary_text r :
  generateSummary r =
    summary_text (length (getFindingsBySeverity critical r))
      (length (getFindingsBySeverity high r))
      (length (getFindingsBySeverity medium r))
      (length (getFindingsBySeverity low r))
      (length (getFindingsBySeverity info r))
      (length (getFindings r)).
Proof.
  unfold generateSummary, summary_text, JS.trim.
  rewrite trimStart_template.
  repeat (rewrite trimEnd_app_keep by keep_total).
  by rewrite trimEnd_num_blank.
Qed.

Lemma cut_at_newline (s s' x y : string) :
  solid s = true → solid s' = true →
  s +:+ JS.LF +:+ x = s' +:+ JS.LF +:+ y → s = s' ∧ x = y.
Proof.
  revert s'. induction s as [|c s IH]; intros [|c' s'] Hs Hs' E.
  - rewrite !app_empty_l in E. by injection E.
  - rewrite app_empty_l, app_cons in E. injection E as <- _.
    by simpl in Hs'.
  - rewrite app_empty_l, app_cons in E. injection E as -> _.
    by simpl in Hs.
  - rewrite !app_cons in E. injection E as -> E.
    simpl in Hs, Hs'. apply andb_true_iff in Hs as [_ Hs].
    apply andb_true_iff in Hs' as [_ Hs'].
    by destruct (IH s' Hs Hs' E) as [-> ->].
Qed.

Lemma num_field (label : string) (a b : nat) (x y : string) :
  label +:+ JS.num a +:+ JS.LF +:+ x = label +:+ JS.num b +:+ JS.LF +:+ y →
  a = b ∧ x = y.
Proof.
  intros E. apply (inj (String.app label)) in E.
  apply cut_at_newline in E as [E ->]; [|apply num_solid..].
  split; [|done]. by apply (inj pretty) in E.
Qed.

(** X2: two reporters print the same summary exactly when they hold the
    same number of findings of each severity: the text can be read back. *)
Theorem generateSummary_inj r1 r2 :
  generateSummary r1 = generateSummary r2 ↔
  ∀ sev, length (getFindingsBySeverity sev r1) = length (getFindingsBySeverity sev r2).
Proof.
  rewrite !generateSummary_text. split.
  - unfold summary_text. intros E.
    apply (inj (String.app "DAST Scan Summary")) in E.
    apply (inj (String.app JS.LF)) in E.
    apply (inj (String.app "=================")) in E.
    apply (inj (String.app JS.LF)) in E.
    apply num_field in E as [Hc E]. apply num_field in E as [Hh E].
    apply num_field in E as [Hm E]. apply num_field in E as [Hl E].
    apply num_field in E as [Hi E].
    by intros [].
  - intros H. rewrite <-!severity_counts_total. unfold severities. simpl.
    by rewrite !H.
Qed.

End reporter_more.

(** ** The authentication gate and the authentication script *)

Section auth_more.
Import AuthSetup.

Implicit Types (fs : gmap string Qc) (now later : Z) (mtime : Qc).

Lemma ms_le (a b : Z) : (a ≤ b)%Z → (ms a ≤ ms b)%Qc.
Proof.
  intros H. unfold ms, Qcle. cbn [this Q2Qc].
  by rewrite !Qred_correct, <-Zle_Qle.
Qed.

Lemma verify_expired_inv fs now :
  verify fs now = Thrown expired_message →
  ∃ mtime, fs !! authFile = Some mtime ∧ (ms authExpiryMs ≤ ms now - mtime)%Qc.
Proof.
  intros H. destruct (fs !! authFile) as [mtime|] eqn:E.
  - exists mtime. split; [done|].
    rewrite (verify_present _ _ _ E) in H. by case_bool_decide.
  - by rewrite (verify_absent _ _ E) in H.
Qed.

(** X3: the script and the gate agree.  The script exits early, reusing
    the stored state, exactly when the gate run at the same instant on the
    same files passes, and both log the same first line; otherwise the
    script goes on to the manual login and the gate throws. *)
Theorem script_agrees_with_gate fs now :
  (∀ log, verify fs now = Passed log ↔
          ∃ hint, AuthScript.stored_state fs now = AuthScript.Exit log hint)
  ∧ (AuthScript.stored_state fs now = AuthScript.Login ↔
     ∃ message, verify fs now = Thrown message).
Proof.
  unfold AuthScript.stored_state, existsSync, statSync.
  change AuthScript.authFile with authFile.
  change AuthScript.authExpiryMs with authExpiryMs.
  destruct (fs !! authFile) as [mtime|] eqn:E.
  - rewrite (verify_present _ _ _ E).
    rewrite (bool_decide_eq_true_2 (is_Some (Some mtime))) by eauto. simpl.
    destruct (decide (ms authExpiryMs ≤ ms now - mtime)%Qc) as [Hle|Hlt].
    + rewrite (bool_decide_eq_true_2 _ Hle).
      rewrite bool_decide_eq_false_2 by (by apply Qcle_not_lt).
      split; [|split; eauto]. intros log. split; [done|by intros [? ?]].
    + rewrite (bool_decide_eq_false_2 _ Hlt).
      rewrite bool_decide_eq_true_2 by (by apply Qcnot_le_lt).
      split.
      * intros log. split; [intros [= <-]; by eexists|by intros [? [= <- _]]].
      * split; [done|by intros [? ?]].
  - rewrite (verify_absent _ _ E).
    rewrite (bool_decide_eq_false_2 (is_Some None)) by (by intros [? ?]). simpl.
    split; [|split; eauto]. intros log. split; [done|by intros [? ?]].
Qed.

(** X4: expiry does not heal: while the snapshot file is not rewritten, a
    gate that has thrown 'Authentication expired' throws it at every later
    instant. *)
Theorem expired_stays_expired fs now later :
  verify fs now = Thrown expired_message →
  (now ≤ later)%Z →
  verify fs later = Thrown expired_message.
Proof.
  intros (mtime & E & Hage)%verify_expired_inv Hlater.
  rewrite (verify_present _ _ _ E), bool_decide_eq_true_2; [done|].
  etrans; [exact Hage|].
  apply Qcplus_le_compat; [by apply ms_le|reflexivity].
Qed.

Lemma expired_stays_expired_witness :
  verify stale_fs 1700003600000 = Thrown expired_message.
Proof.
  apply (expired_stays_expired stale_fs 1700000000000 1700003600000).
  - reflexivity.
  - vm_compute. discriminate.
Defined.

(** X5: a snapshot file dated in the future, as after a clock change,
    always passes the gate: its age is negative, hence below the limit. *)
Theorem future_file_passes fs now mtime :
  fs !! authFile = Some mtime →
  (ms now ≤ mtime)%Qc →
  verify fs now = Passed (using_stored (ms now - mtime)).
Proof.
  intros E Hfuture. rewrite (verify_present _ _ _ E).
  rewrite bool_decide_eq_false_2; [done|].
  apply Qclt_not_le. apply Qcle_lt_trans with 0%Qc; [|done].
  apply Qcle_minus_iff. apply Qcle_minus_iff in Hfuture.
  by replace (0 + - (ms now - mtime))%Qc with (mtime + - ms now)%Qc by ring.
Qed.

End auth_more.

Lemma future_file_passes_witness :
  AuthSetup.verify fresh_fs 1699999990000
  = AuthSetup.Passed (JS.LF +:+ "✓ Using stored authentication (age: 0 minutes)").
Proof.
  apply (future_file_passes fresh_fs 1699999990000 (AuthSetup.ms 1699999999000)).
  - reflexivity.
  - vm_compute. discriminate.
Defined.

(** ** Arrays built by pushing, and [new Set] *)

Section arrays.

Context {A B : Type}.

(** A loop that pushes [g x] for the elements that pass [p] builds the
    list of these values, in order, after what was there. *)
Lemma foldl_push (p : A → bool) (g : A → B) (init : list B) (xs : list A) :
  foldl (λ acc x, if p x then acc ++ [g x] else acc) init xs
  = init ++ omap (λ x, if p x then Some (g x) else None) xs.
Proof.
  revert init. induction xs as [|x xs IH]; intros init; simpl.
  - by rewrite app_nil_r.
  - rewrite IH. destruct (p x); [|done]. by rewrite <-app_assoc.
Qed.

Lemma elem_of_pushed (p : A → bool) (g : A → B) (xs : list A) (y : B) :
  y ∈ omap (λ x, if p x then Some (g x) else None) xs
  ↔ ∃ x, x ∈ xs ∧ p x = true ∧ y = g x.
Proof.
  rewrite list_elem_of_omap. split.
  - intros (x & Hx & E). exists x. destruct (p x); [|done]. by injection E as <-.
  - intros (x & Hx & Hp & ->). exists x. by rewrite Hp.
Qed.

Lemma elem_of_concat (x : A) (ls : list (list A)) :
  x ∈ concat ls ↔ ∃ l, x ∈ l ∧ l ∈ ls.
Proof.
  induction ls as [|l ls IH]; simpl.
  - rewrite elem_of_nil. split; [done|]. by intros (? & _ & ?%elem_of_nil).
  - rewrite elem_of_app, IH. split.
    + intros [?|(l' & ? & ?)]; [exists l; split; [done|by left]|].
      exists l'. split; [done|by right].
    + intros (l' & ? & [->|?]%elem_of_cons); [by left|right; by exists l'].
Qed.


End arrays.

Section unique.

Implicit Types (seen xs : list string) (x : string).

Lemma uniq_spec seen xs :
  NoDup (JS.uniq seen xs) ∧ ∀ x, x ∈ JS.uniq seen xs ↔ x ∈ xs ∧ x ∉ seen.
Proof.
  revert seen. induction xs as [|y xs IH]; intros seen; simpl.
  - split; [constructor|]. intros x. rewrite elem_of_nil. tauto.
  - destruct (IH seen) as [Hnd Hin]. destruct (IH (y :: seen)) as [Hnd' Hin'].
    case_bool_decide as Hy.
    + split; [done|]. intros x. rewrite Hin, elem_of_cons.
      split; [tauto|]. intros [[->|?] ?]; tauto.
    + split.
      * constructor; [|done]. rewrite Hin', elem_of_cons. tauto.
      * intros x. rewrite !elem_of_cons, Hin', elem_of_cons.
        destruct (decide (x = y)) as [->|]; tauto.
Qed.

Lemma unique_NoDup xs : NoDup (JS.unique xs).
Proof. apply uniq_spec. Qed.

Lemma elem_of_unique xs x : x ∈ JS.unique xs ↔ x ∈ xs.
Proof.
  unfold JS.unique. rewrite (proj2 (uniq_spec [] xs)), elem_of_nil. tauto.
Qed.

Lemma uniq_sublist seen xs : JS.uniq seen xs `sublist_of` xs.
Proof.
  revert seen. induction xs as [|y xs IH]; intros seen; simpl; [done|].
  case_bool_decide; [by apply sublist_cons|by apply sublist_skip].
Qed.

End unique.

(** ** The scanning helpers *)

Section scan.
Import Scan.

Lemma truthy_Some (v : option string) :
  JSMore.truthy v = true ↔ ∃ s, v = Some s ∧ s ≠ "".
Proof.
  destruct v as [[|c s]|]; simpl; split; try done.
  - by intros (? & [= <-] & ?).
  - intros _. by eexists.
  - by intros (? & ? & ?).
Qed.

Lemma collected_hrefs (links : list (option string)) :
  foldl collect_href [] links
  = omap (λ href, if keeps href then Some (default "" href) else None) links.
Proof. unfold collect_href. by rewrite foldl_push. Qed.

(** X6: [findLinks] returns each usable address once: an address is in
    the result exactly when some link carries it and it is not empty, not
    an anchor and not a [javascript:] link; no address is repeated, and the
    order is that of the first occurrences. *)
Theorem findLinks_distinct_usable (links : list (option string)) :
  NoDup (findLinks links)
  ∧ (∀ href, href ∈ findLinks links ↔
       Some href ∈ links ∧ href ≠ ""
       ∧ JS.startsWith href "#" = false
       ∧ JS.startsWith href "javascript:" = false)
  ∧ findLinks links `sublist_of` omap id links.
Proof.
  unfold findLinks. split_and!.
  - apply unique_NoDup.
  - intros href. rewrite elem_of_unique, collected_hrefs, elem_of_pushed.
    unfold keeps. split.
    + intros ([s|] & Hin & Hkeep & ->); [|done]. simpl in *.
      apply andb_true_iff in Hkeep as [[Ht H1]%andb_true_iff H2].
      apply negb_true_iff in H1, H2.
      split_and!; [done| |done..]. by destruct s.
    + intros (Hin & Hne & H1 & H2). exists (Some href). simpl.
      rewrite H1, H2. split_and!; [done| |done]. by destruct href.
  - etrans; [apply uniq_sublist|]. rewrite collected_hrefs.
    induction links as [|[s|] links IH]; simpl; [done| |].
    + destruct (keeps (Some s)); [by apply sublist_skip|by apply sublist_cons].
    + done.
Qed.

Example findLinks_some_links : findLinks some_links = ["/cart"; "/login"].
Proof. reflexivity. Qed.

Lemma findForms_map (forms : list FormElement) :
  findForms forms = form_data <$> forms.
Proof.
  unfold findForms.
  rewrite (foldl_push (λ _, true) form_data). simpl.
  induction forms as [|form forms IH]; [done|]. simpl in *. by f_equal.
Qed.

Lemma lower_idem (c : ascii) : JS.lower (JS.lower c) = JS.lower c.
Proof. by destruct c as [[] [] [] [] [] [] [] []]. Qed.

Lemma toLowerCase_idem (s : string) :
  JS.toLowerCase (JS.toLowerCase s) = JS.toLowerCase s.
Proof. induction s as [|c s IH]; [done|]. simpl. by rewrite lower_idem, IH. Qed.

Lemma collected_names (names : list (option string)) :
  foldl collect_name [] names
  = omap (λ name, if JSMore.truthy name then Some (default "" name) else None) names.
Proof. unfold collect_name. by rewrite foldl_push. Qed.

(** X7: [findForms] returns one record per form, in order; the method of
    each is never empty and is in lower case, [get] standing in for a
    missing or empty attribute; the action is the attribute or the empty
    string; and the inputs are the names that are set, none of them empty. *)
Theorem findForms_normalised (forms : list FormElement) :
  length (findForms forms) = length forms
  ∧ (∀ i form, forms !! i = Some form →
       ∃ data, findForms forms !! i = Some data
         ∧ fd_method data ≠ ""
         ∧ JS.toLowerCase (fd_method data) = fd_method data
         ∧ (JSMore.truthy (fe_method form) = false → fd_method data = "get")
         ∧ (JSMore.truthy (fe_action form) = false → fd_action data = "")
         ∧ (∀ name, name ∈ fd_inputs data ↔ Some name ∈ fe_inputs form ∧ name ≠ "")).
Proof.
  rewrite findForms_map. split; [by rewrite length_fmap|].
  intros i form Hi. exists (form_data form).
  rewrite list_lookup_fmap, Hi. simpl. split_and!; [done| | | | |].
  - unfold JSMore.or_default. destruct (fe_method form) as [[|c s]|]; simpl; done.
  - apply toLowerCase_idem.
  - unfold JSMore.or_default. by intros ->.
  - unfold JSMore.or_default. by intros ->.
  - intros name. rewrite collected_names, elem_of_pushed. split.
    + intros ([s|] & Hin & Ht & ->); [|done]. simpl. split; [done|].
      by destruct s.
    + intros (Hin & Hne). exists (Some name). split_and!; [done| |done].
      by destruct name.
Qed.

Lemma findForms_normalised_witness :
  ∃ data,
    findForms [ {| fe_action := None; fe_method := Some "POST";
                   fe_inputs := [Some "q"; None; Some ""] |} ] !! 0 = Some data
    ∧ fd_method data = "post" ∧ fd_action data = "" ∧ fd_inputs data = ["q"].
Proof.
  destruct (proj2 (findForms_normalised
    [ {| fe_action := None; fe_method := Some "POST";
         fe_inputs := [Some "q"; None; Some ""] |} ]) 0 _ eq_refl)
    as (data & Hdata & _).
  exists data. injection Hdata as <-. by split_and!.
Defined.



Example checkSecurityHeaders_thin :
  title <$> checkSecurityHeaders thin_response
  = (λ header, "Missing Security Header: " +:+ header) <$>
      [ "x-content-type-options"; "strict-transport-security";
        "content-security-policy"; "x-xss-protection"; "referrer-policy";
        "permissions-policy" ].
Proof. reflexivity. Qed.

End scan.

(** ** Counting what the loops send and find *)

Section steps.

Implicit Types (env : Env) (w : World) (reqs : list Request) (new : list Finding).

Lemma steps_refl w : steps [] [] w w.
Proof. unfold steps. by rewrite !app_nil_r. Qed.

Lemma steps_trans reqs1 reqs2 new1 new2 w1 w2 w3 :
  steps reqs1 new1 w1 w2 → steps reqs2 new2 w2 w3 →
  steps (reqs1 ++ reqs2) (new1 ++ new2) w1 w3.
Proof.
  intros (Hs1 & Hf1 & Hp1) (Hs2 & Hf2 & Hp2). unfold steps.
  by rewrite Hs2, Hs1, Hf2, Hf1, Hp2, Hp1, !app_assoc.
Qed.

Lemma steps_request req w : steps [req] [] w (after_request req w).
Proof. unfold steps. simpl. by rewrite app_nil_r. Qed.

Lemma steps_finding f w : steps [] [f] w (after_finding f w).
Proof. unfold steps. simpl. by rewrite app_nil_r. Qed.


Lemma steps_after_request req reqs new w w' :
  steps reqs new (after_request req w) w' → steps (req :: reqs) new w w'.
Proof. intros H. apply (steps_trans [req] reqs [] new _ _ _ (steps_request _ _) H). Qed.

Lemma steps_found new1 new2 w1 w2 w3 :
  steps [] new1 w1 w2 → steps [] new2 w2 w3 → steps [] (new1 ++ new2) w1 w3.
Proof. apply (steps_trans [] []). Qed.

Context {A O : Type}.


End steps.



(** A scan that adds the finding of the first element that passes and
    then breaks. *)
Lemma scan_first {A} (c : A → bool) (f : A → Finding) (xs : list A) env w :
  for_of xs (λ x, if c x then add_finding (f x);; mret Break else mret Next) env w
  = (Ok (), match List.find c xs with
            | Some x => after_finding (f x) w
            | None => w
            end).
Proof.
  induction xs as [|x xs IH]; [done|]. simpl List.find.
  destruct (c x) eqn:Hc.
  - erewrite for_of_break; [done|]. by rewrite Hc.
  - erewrite for_of_next; [exact IH|]. by rewrite Hc.
Qed.

(** ** What the patterns of the path-traversal probe match *)

Section patterns.
Import RegExp.

Lemma canon_cons ic c s :
  canon ic (String c s) = String (if ic then JS.lower c else c) (canon ic s).
Proof. by destruct ic. Qed.

Lemma match_here_lits ic (text s : string) :
  match_here ic (lits text) s = String.prefix (canon ic text) (canon ic s).
Proof.
  revert s. induction text as [|c text IH]; intros s.
  - simpl. by destruct (canon ic s), ic.
  - unfold lits in *. simpl. destruct s as [|d s]; simpl.
    + rewrite canon_cons. by destruct ic.
    + rewrite !canon_cons, IH. simpl. unfold same.
      destruct ic; case_bool_decide; destruct (ascii_dec _ _); done.
Qed.

Lemma search_prefix ic atoms (text s : string) :
  (∀ s, match_here ic atoms s = String.prefix text (canon ic s)) →
  search ic atoms s = JS.includes (canon ic s) text.
Proof.
  intros H. induction s as [|d s IH]; simpl.
  - rewrite H. by destruct ic.
  - rewrite H, IH, canon_cons. done.
Qed.

Lemma search_lits ic (text s : string) :
  search ic (lits text) s = JS.includes (canon ic s) (canon ic text).
Proof. apply search_prefix. intros. apply match_here_lits. Qed.

Lemma search_unfold ic atoms (s : string) :
  search ic atoms s
  = match_here ic atoms s
    || match s with EmptyString => false | String _ s' => search ic atoms s' end.
Proof. by destruct s. Qed.

(** An optional first character does not change what an unanchored
    pattern finds. *)
Lemma search_optional ic c rest (s : string) :
  search ic (Opt c :: rest) s = search ic rest s.
Proof.
  induction s as [|d s IH].
  - simpl. by rewrite !orb_false_r.
  - rewrite (search_unfold ic (Opt c :: rest)), IH, (search_unfold ic rest (String d s)).
    simpl. rewrite (search_unfold ic rest s).
    destruct (same ic c d), (match_here ic rest s), (match_here ic rest (String d s));
      simpl; done.
Qed.

(** X9: what makes the path-traversal probe fire.  A body matches one of
    the ten patterns exactly when it contains one of three account lines or
    [LOG] as written, or, in any letter case, [[boot loader]],
    [[operating systems]], [<configuration>], [<connectionStrings>],
    [debug], or the three letters [xml]: the [<] of [/<?xml/i] is optional,
    not part of the match. *)
Theorem fires_iff_contains (body : string) :
  fires body =
    JS.includes body "root:x:0:0:" || JS.includes body "daemon:x:1:1:"
    || JS.includes body "nobody:x:"
    || JS.includes (JS.toLowerCase body) "[boot loader]"
    || JS.includes (JS.toLowerCase body) "[operating systems]"
    || JS.includes (JS.toLowerCase body) "xml"
    || JS.includes (JS.toLowerCase body) "<configuration>"
    || JS.includes (JS.toLowerCase body) "<connectionstrings>"
    || JS.includes (JS.toLowerCase body) "debug"
    || JS.includes body "LOG".
Proof.
  unfold fires, PathTraversal.sensitiveFilePatterns, PathTraversal.passwd_pattern,
    existsb, test.
  cbn [source flags ignoreCase].
  change (compile "root:x:0:0:") with (lits "root:x:0:0:").
  change (compile "daemon:x:1:1:") with (lits "daemon:x:1:1:").
  change (compile "nobody:x:") with (lits "nobody:x:").
  change (compile "\[boot loader\]") with (lits "[boot loader]").
  change (compile "\[operating systems\]") with (lits "[operating systems]").
  change (compile "<?xml") with (Opt "<" :: lits "xml").
  change (compile "<configuration>") with (lits "<configuration>").
  change (compile "<connectionStrings>") with (lits "<connectionStrings>").
  change (compile "DEBUG") with (lits "DEBUG").
  change (compile "LOG") with (lits "LOG").
  change (JS.includes "" "i") with false. change (JS.includes "i" "i") with true.
  rewrite search_optional, !search_lits. simpl canon.
  by rewrite !orb_assoc, orb_false_r.
Qed.

Example fires_on_html :
  fires ("<html xmlns=" +:+ JS.DQ +:+ "http://www.w3.org/1999/xhtml" +:+ JS.DQ +:+ ">")
  = true.
Proof. reflexivity. Qed.

End patterns.

(** ** The path-traversal tests, continued *)

Section path_traversal_more.

Implicit Types (env : Env) (w : World).

Lemma existsb_find {A} (c : A → bool) (xs : list A) :
  existsb c xs = true → ∃ x, List.find c xs = Some x ∧ x ∈ xs ∧ c x = true.
Proof.
  induction xs as [|x xs IH]; [done|]. simpl.
  destruct (c x) eqn:Hc.
  - intros _. exists x. split_and!; [done|by left|done].
  - intros (y & ? & ? & ?)%IH. exists y. split_and!; [done|by right|done].
Qed.

Lemma existsb_none {A} (c : A → bool) (xs : list A) :
  existsb c xs = false → List.find c xs = None.
Proof.
  induction xs as [|x xs IH]; [done|]. simpl.
  destruct (c x); [done|]. exact IH.
Qed.

Lemma path_attempt_outcome env w baseUrl payload response :
  net env (length (sent w)) (probe baseUrl payload) = Ok response →
  let body := body_or_empty response in
  let w1 := after_request (probe baseUrl payload) w in
  PathTraversal.attempt baseUrl payload env w
  = (Ok Next,
     if (status response =? 200)%Z && (0 <? String.length body) then
       match List.find (λ pattern, RegExp.test pattern body)
               PathTraversal.sensitiveFilePatterns with
       | Some pattern =>
           after_finding
             (PathTraversal.finding (PathTraversal.testUrl baseUrl payload) payload pattern)
             w1
       | None => w1
       end
     else w1).
Proof.
  intros Hnet body w1. unfold PathTraversal.attempt, probe in *.
  apply try_catch_ok.
  erewrite bind_ok; [|unfold get, fetch; by rewrite Hnet].
  cbv beta zeta.
  erewrite (bind_ok _ _ _ _ body); [|unfold body, body_or_empty; by destruct (text response)].
  fold w1. destruct (_ && _); [|done].
  unfold when. erewrite bind_ok; [|apply scan_first]. done.
Qed.

(** X10: an answered path-traversal request is reported exactly when its
    status is 200 and its body, taken as empty when it cannot be read,
    matches a pattern; the finding then names the first pattern that
    matches.  Any other status is never reported, whatever the body. *)
Theorem path_attempt_reports_iff env w baseUrl payload response :
  net env (length (sent w)) (probe baseUrl payload) = Ok response →
  let body := body_or_empty response in
  let w1 := after_request (probe baseUrl payload) w in
  (status response = 200%Z → fires body = true →
     ∃ pattern, pattern ∈ PathTraversal.sensitiveFilePatterns
       ∧ RegExp.test pattern body = true
       ∧ PathTraversal.attempt baseUrl payload env w
         = (Ok Next, after_finding
              (PathTraversal.finding (PathTraversal.testUrl baseUrl payload) payload pattern)
              w1))
  ∧ (status response ≠ 200%Z ∨ fires body = false →
       PathTraversal.attempt baseUrl payload env w = (Ok Next, w1)).
Proof.
  intros Hnet body w1. rewrite (path_attempt_outcome _ _ _ _ _ Hnet).
  fold body w1. split.
  - intros Hstatus Hfires. rewrite Hstatus.
    change (200 =? 200)%Z with true. cbn [andb].
    destruct (existsb_find _ _ Hfires) as (pattern & Hfind & Hin & Htest).
    exists pattern. rewrite Hfind.
    assert ((0 <? String.length body) = true) as ->.
    { destruct body; [|done]. by vm_compute in Hfires. }
    by split_and!.
  - intros [Hstatus|Hfires].
    + by rewrite (proj2 (Z.eqb_neq _ _) Hstatus).
    + rewrite (existsb_none _ _ Hfires). by destruct (_ && _).
Qed.

Lemma path_attempt_reports_iff_witness :
  PathTraversal.attempt "/?file=" "../../etc/passwd" failing start
  = (Ok Next, after_request (probe "/?file=" "../../etc/passwd") start).
Proof.
  apply (proj2 (path_attempt_reports_iff failing start "/?file=" "../../etc/passwd"
                  failing_response eq_refl)).
  left. discriminate.
Defined.






End path_traversal_more.

(** ** The encoded payload *)

Section encoding.

Lemma hex_digit_inj (n m : nat) :
  n < 16 → m < 16 → JS.hex_digit n = JS.hex_digit m → n = m.
Proof.
  intros Hn Hm E. apply (f_equal nat_of_ascii) in E. unfold JS.hex_digit in E.
  destruct (Nat.ltb_spec n 10), (Nat.ltb_spec m 10);
    rewrite !nat_ascii_embedding in E by lia; lia.
Qed.

Lemma hex_digit_unreserved (n : nat) :
  n < 16 → JS.uri_unreserved (JS.hex_digit n) = true.
Proof.
  intros Hn.
  assert (n ∈ seq 0 16) as Hin by (apply elem_of_seq; lia).
  revert Hin. generalize n. clear. apply Forall_forall.
  by apply (bool_decide_unpack _).
Qed.

Lemma percent_reserved : JS.uri_unreserved "%" = false.
Proof. reflexivity. Qed.

Lemma encode_cons (c : ascii) (s : string) :
  JS.encodeURIComponent (String c s) =
    if JS.uri_unreserved c then String c (JS.encodeURIComponent s)
    else String "%" (String (JS.hex_digit (nat_of_ascii c / 16))
           (String (JS.hex_digit (nat_of_ascii c mod 16)) (JS.encodeURIComponent s))).
Proof. reflexivity. Qed.

Lemma encodeURIComponent_inj (a b : string) :
  JS.encodeURIComponent a = JS.encodeURIComponent b → a = b.
Proof.
  revert b. induction a as [|c a IH]; intros [|d b]; rewrite ?encode_cons.
  - done.
  - simpl. by case_match.
  - simpl. by case_match.
  - pose proof (nat_ascii_bounded c) as Hc. pose proof (nat_ascii_bounded d) as Hd.
    destruct (JS.uri_unreserved c) eqn:Uc, (JS.uri_unreserved d) eqn:Ud.
    + intros [= -> E]. by rewrite (IH _ E).
    + intros [= -> _]. by rewrite percent_reserved in Uc.
    + intros [= <- _]. by rewrite percent_reserved in Ud.
    + pose proof (Nat.div_mod_eq (nat_of_ascii c) 16) as Dc.
      pose proof (Nat.div_mod_eq (nat_of_ascii d) 16) as Dd.
      assert (nat_of_ascii c / 16 < 16) as Qc
        by (apply Nat.Div0.div_lt_upper_bound; lia).
      assert (nat_of_ascii d / 16 < 16) as Qd
        by (apply Nat.Div0.div_lt_upper_bound; lia).
      assert (nat_of_ascii c mod 16 < 16) as Rc by (apply Nat.mod_upper_bound; lia).
      assert (nat_of_ascii d mod 16 < 16) as Rd by (apply Nat.mod_upper_bound; lia).
      revert Dc Dd Qc Qd Rc Rd.
      generalize (nat_of_ascii c / 16) (nat_of_ascii c mod 16)
        (nat_of_ascii d / 16) (nat_of_ascii d mod 16).
      intros qc rc qd rd Dc Dd Qc Qd Rc Rd [= E1 E2 E]. rewrite (IH _ E).
      apply hex_digit_inj in E1; [|done..]. apply hex_digit_inj in E2; [|done..].
      f_equal. rewrite <-(ascii_nat_embedding c), <-(ascii_nat_embedding d).
      f_equal. lia.
Qed.

Lemma encodeURIComponent_alphabet (s : string) (c : ascii) :
  c ∈ String.list_ascii_of_string (JS.encodeURIComponent s) →
  JS.uri_unreserved c = true ∨ c = "%"%char.
Proof.
  induction s as [|d s IH]; [by intros ?%elem_of_nil|].
  rewrite encode_cons. pose proof (nat_ascii_bounded d) as Hd.
  destruct (JS.uri_unreserved d) eqn:Ud.
  - simpl. rewrite !elem_of_cons. intros [->|?]; auto.
  - assert (nat_of_ascii d / 16 < 16) as Qd
      by (apply Nat.Div0.div_lt_upper_bound; lia).
    assert (nat_of_ascii d mod 16 < 16) as Rd by (apply Nat.mod_upper_bound; lia).
    revert Qd Rd. generalize (nat_of_ascii d / 16) (nat_of_ascii d mod 16).
    intros q r Qd Rd. simpl. rewrite !elem_of_cons.
    intros [->|[->|[->|?]]]; auto; left; by apply hex_digit_unreserved.
Qed.

(** X13: the test URL of the first path-traversal test keeps payloads
    apart and keeps them inside the parameter: two payloads with the same
    test URL for a base URL are the same payload, and the encoded part
    consists of the unreserved characters and [%] only, so it holds no
    slash, question mark, ampersand, equals sign, hash or space. *)
Theorem testUrl_faithful (baseUrl p1 p2 : string) :
  (PathTraversal.testUrl baseUrl p1 = PathTraversal.testUrl baseUrl p2 → p1 = p2)
  ∧ Forall (λ c, c ∉ ["/"; "?"; "&"; "="; "#"; " "]%char)
      (String.list_ascii_of_string (JS.encodeURIComponent p1)).
Proof.
  split.
  - unfold PathTraversal.testUrl. intros E.
    apply (inj (String.app baseUrl)) in E. by apply encodeURIComponent_inj.
  - apply Forall_forall. intros c Hc Hbad.
    apply encodeURIComponent_alphabet in Hc as [Hc| ->].
    + assert (Forall (λ c, JS.uri_unreserved c = false)
                ["/"; "?"; "&"; "="; "#"; " "]%char) as Hres
        by (by apply (bool_decide_unpack _)).
      rewrite Forall_forall in Hres. by rewrite (Hres c Hbad) in Hc.
    + revert Hbad. by apply (bool_decide_unpack _).
Qed.

Lemma testUrl_faithful_witness :
  Forall (λ c, c ∉ ["/"; "?"; "&"; "="; "#"; " "]%char)
    (String.list_ascii_of_string (JS.encodeURIComponent "../../etc/passwd?x=1&y #")).
Proof.
  exact (proj2 (testUrl_faithful "/?file=" "../../etc/passwd?x=1&y #" "")).
Defined.

End encoding.

(** ** The CORS tests, continued *)

Section cors_more.

Implicit Types (env : Env) (w : World).

Lemma when_add (c : bool) (f : Finding) env w :
  when c (add_finding f) env w = (Ok (), if c then after_finding f w else w).
Proof. by destruct c. Qed.

Lemma steps_when (c : bool) (f : Finding) w :
  steps [] (if c then [f] else []) w (if c then after_finding f w else w).
Proof. destruct c; [apply steps_finding|apply steps_refl]. Qed.

Lemma cors_attempt_outcome env w endpoint origin response :
  net env (length (sent w)) (Cors.probe_request endpoint origin) = Ok response →
  ∃ w', Cors.attempt endpoint origin env w = (Ok Next, w')
        ∧ steps [Cors.probe_request endpoint origin]
            (cors_findings endpoint origin response) w w'.
Proof.
  intros Hnet. unfold Cors.attempt, cors_findings.
  set (acao := headers response !! "access-control-allow-origin").
  set (acac := headers response !! "access-control-allow-credentials").
  eexists. split.
  - apply try_catch_ok.
    erewrite bind_ok; [|unfold fetch; by rewrite Hnet].
    cbv beta zeta. fold acao acac.
    erewrite bind_ok; [|apply when_add].
    erewrite bind_ok; [|apply when_add].
    erewrite bind_ok; [|apply when_add]. reflexivity.
  - apply steps_after_request.
    eapply steps_found; [apply steps_when|].
    eapply steps_found; [apply steps_when|]. apply steps_when.
Qed.

(** X14: what one answered CORS attempt can add, for a tested origin: at
    most two findings; none when the response has no
    [access-control-allow-origin] header; and two only when the origin
    [null] is reflected with credentials, which is reported both as an
    arbitrary origin with credentials and as a null origin. *)
Theorem cors_attempt_findings env w endpoint origin response :
  origin ∈ Cors.testOrigins →
  net env (length (sent w)) (Cors.probe_request endpoint origin) = Ok response →
  ∃ w' new,
    Cors.attempt endpoint origin env w = (Ok Next, w')
    ∧ steps [Cors.probe_request endpoint origin] new w w'
    ∧ length new ≤ 2
    ∧ (headers response !! "access-control-allow-origin" = None → new = [])
    ∧ (length new = 2 ↔
       origin = "null"
       ∧ headers response !! "access-control-allow-origin" = Some "null"
       ∧ headers response !! "access-control-allow-credentials" = Some "true").
Proof.
  intros Horigin Hnet.
  destruct (cors_attempt_outcome _ _ _ _ _ Hnet) as (w' & E & Hsteps).
  exists w', (cors_findings endpoint origin response).
  split_and!; [done|done|..]; unfold cors_findings;
    pose proof (testOrigins_not_star _ Horigin) as Hstar;
    destruct (headers response !! "access-control-allow-origin") as [acao|];
    destruct (headers response !! "access-control-allow-credentials") as [acac|];
    repeat case_bool_decide; simplify_eq/=; try done; try lia;
    try (split; [intros; lia|intros (? & ? & ?); simplify_eq]);
    try (split; [done|intros (-> & _); done]); try (by split).
Qed.

Lemma cors_attempt_findings_witness :
  ∃ w' new,
    Cors.attempt "/api" "null" reflecting start = (Ok Next, w')
    ∧ steps [Cors.probe_request "/api" "null"] new start w'
    ∧ length new ≤ 2
    ∧ (headers reflecting_response !! "access-control-allow-origin" = None → new = [])
    ∧ (length new = 2 ↔
       "null" = "null"
       ∧ headers reflecting_response !! "access-control-allow-origin" = Some "null"
       ∧ headers reflecting_response !! "access-control-allow-credentials" = Some "true").
Proof.
  apply (cors_attempt_findings reflecting start "/api" "null" reflecting_response).
  - by apply (bool_decide_unpack _).
  - reflexivity.
Defined.

Example cors_reflecting_two :
  title <$> getFindings (reporter (snd (Cors.attempt "/api" "null" reflecting start)))
  = [ "CORS Allows Arbitrary Origin with Credentials"; "CORS Allows Null Origin" ].
Proof. reflexivity. Qed.

End cors_more.

Section cors_test.

Implicit Types (env : Env) (w : World).




End cors_test.

(** ** The preflight test *)

Section preflight.

Implicit Types (env : Env) (w : World) (tokens : list string).









End preflight.

(** ** The header tests *)

Section header_tests.
Import HeaderTests.

Implicit Types (env : Env) (w : World).

(** A loop that adds a finding for the elements that pass a test. *)
Lemma for_of_when {A} (c : A → bool) (f : A → Finding) (xs : list A) env w :
  ∃ w', for_of xs (λ x, when (c x) (add_finding (f x));; mret Next) env w = (Ok (), w')
        ∧ steps [] (omap (λ x, if c x then Some (f x) else None) xs) w w'.
Proof.
  revert w. induction xs as [|x xs IH]; intros w.
  - exists w. split; [done|apply steps_refl].
  - destruct (IH (if c x then after_finding (f x) w else w)) as (w' & Hrun & Hsteps).
    exists w'. split.
    + erewrite for_of_next; [exact Hrun|]. by erewrite bind_ok by apply when_add.
    + change (omap (λ x, if c x then Some (f x) else None) (x :: xs))
        with (match (if c x then Some (f x) else None) with
              | Some y => y :: omap (λ x, if c x then Some (f x) else None) xs
              | None => omap (λ x, if c x then Some (f x) else None) xs
              end).
      destruct (c x); [|done].
      apply (steps_found [_] _ _ _ _ (steps_finding _ _) Hsteps).
Qed.






Lemma disclosed_inj (n1 v1 n2 v2 : string) :
  disclosed n1 v1 = disclosed n2 v2 → n1 = n2 ∧ v1 = v2.
Proof.
  intros E. assert (title (disclosed n1 v1) = title (disclosed n2 v2)) as Ht
    by (by rewrite E).
  assert (evidence (disclosed n1 v1) = evidence (disclosed n2 v2)) as He
    by (by rewrite E).
  simpl in Ht, He. apply (inj (String.app _)) in Ht as ->. split; [done|].
  injection He as He. apply (inj (String.app _)) in He.
  by apply (inj (String.app _)) in He.
Qed.

(** X18: the test for disclosing headers reports a header and its value
    exactly when the header is one of its four and the response sets it to
    a value that is not empty; each finding is of severity low and quotes
    the header line as evidence. *)
Theorem check_info_headers_findings env w response :
  net env (length (sent w)) root_request = Ok response →
  ∃ w' new,
    check_info_headers env w = (Ok (), w')
    ∧ steps [root_request] new w w'
    ∧ (∀ name value,
         disclosed name value ∈ new ↔
         name ∈ infoHeaders ∧ headers response !! name = Some value ∧ value ≠ "")
    ∧ Forall (λ f, severity f = low ∧ ∃ name value,
                f = disclosed name value
                ∧ evidence f = Some (name +:+ ": " +:+ value)) new.
Proof.
  intros Hnet. unfold check_info_headers.
  destruct (for_of_when
    (λ name, JSMore.truthy (headers response !! name))
    (λ name, disclosed name (default "" (headers response !! name)))
    infoHeaders env (after_request root_request w))
    as (w' & Hrun & Hsteps).
  eexists w', _. split_and!; [|by apply steps_after_request|..].
  - erewrite bind_ok; [|unfold fetch; by rewrite Hnet]. exact Hrun.
  - intros name value. rewrite elem_of_pushed. split.
    + intros (n & Hin & Ht & [-> ->]%disclosed_inj).
      apply truthy_Some in Ht as (s & Hs & Hne). rewrite Hs. by split_and!.
    + intros (Hin & Hv & Hne). exists name. rewrite Hv. split_and!; [done| |done].
      by destruct value.
  - apply Forall_forall. intros f (n & _ & _ & ->)%elem_of_pushed.
    split; [done|]. by eexists _, _.
Qed.

Lemma check_info_headers_findings_witness :
  ∃ w' new,
    check_info_headers chatty start = (Ok (), w')
    ∧ steps [root_request] new start w'
    ∧ (∀ name value,
         disclosed name value ∈ new ↔
         name ∈ infoHeaders ∧ headers chatty_response !! name = Some value ∧ value ≠ "")
    ∧ Forall (λ f, severity f = low ∧ ∃ name value,
                f = disclosed name value
                ∧ evidence f = Some (name +:+ ": " +:+ value)) new.
Proof. apply (check_info_headers_findings chatty start chatty_response). reflexivity. Defined.

Example check_info_headers_chatty :
  evidence <$> getFindings (reporter (snd (check_info_headers chatty start)))
  = [Some "server: nginx/1.18.0"].
Proof. reflexivity. Qed.

End header_tests.

(** ** The cookie test, continued *)

Section cookies_more.
Import SecurityHeaders.

Implicit Types (env : Env) (w : World) (cookie : Cookie).

#[local] Instance SameSite_eq_dec : EqDecision SameSite.
Proof. solve_decision. Defined.







Example check_cookie_flags_careful :
  title <$> getFindings (reporter (snd (check_cookie_flags careful_shop start)))
  = ["Insecure Cookie: theme"].
Proof. reflexivity. Qed.

End cookies_more.

(** ** The upload tests, continued *)

Section strings_more.

Lemma prefix_inv (p s : string) :
  String.prefix p s = true → ∃ post, s = p +:+ post.
Proof.
  revert s. induction p as [|c p IH]; intros s H.
  - exists s. by rewrite app_empty_l.
  - destruct s as [|d s]; [done|]. simpl in H.
    destruct (ascii_dec c d) as [->|]; [|done].
    destruct (IH _ H) as (post & ->). exists post. by rewrite app_cons.
Qed.

Lemma includes_here (p s : string) :
  String.prefix p s = true → JS.includes s p = true.
Proof.
  intros H. destruct s; unfold JS.includes; fold JS.includes; by rewrite H.
Qed.

(** [s.includes(p)] is true exactly when [p] stands somewhere in [s]. *)
Lemma includes_iff (s p : string) :
  JS.includes s p = true ↔ ∃ pre post, s = pre +:+ p +:+ post.
Proof.
  split.
  - induction s as [|c s IH]; unfold JS.includes; fold JS.includes.
    + rewrite orb_false_r. intros (post & E)%prefix_inv. by exists "", post.
    + intros [(post & E)%prefix_inv|(pre & post & ->)%IH]%orb_true_iff.
      * exists "", post. by rewrite app_empty_l.
      * exists (String c pre), post. by rewrite app_cons.
  - intros (pre & post & ->). induction pre as [|c pre IH].
    + rewrite app_empty_l. apply includes_here, prefix_app.
    + rewrite app_cons. simpl. rewrite IH. apply orb_true_r.
Qed.

Lemma string_app_assoc (a b c : string) : (a +:+ b) +:+ c = a +:+ b +:+ c.
Proof. induction a as [|x a IH]; [done|]. by rewrite !app_cons, IH. Qed.

Lemma toLowerCase_app (a b : string) :
  JS.toLowerCase (a +:+ b) = JS.toLowerCase a +:+ JS.toLowerCase b.
Proof. induction a as [|c a IH]; [done|]. rewrite app_cons. simpl. by rewrite IH. Qed.

(** A text that holds [p] holds it in lower case once lowered. *)
Lemma includes_lowered (pre p post : string) :
  JS.includes (JS.toLowerCase (pre +:+ p +:+ post)) (JS.toLowerCase p) = true.
Proof. rewrite !toLowerCase_app. apply includes_iff. by eexists _, _. Qed.

End strings_more.

Section upload_more.
Import FileUpload.

Variable exec_all : RegExp.t → string → list string.

Implicit Types (env : Env) (w : World) (file : File).

(** X21: when the upload probe counts an upload as accepted.  The file
    must be of risk critical or high, and then it is enough that the status
    is 200 or 201, or that the body, in lower case, contains one of
    [upload successful], [file uploaded], [success], [200], [location] or
    the name of the file: a refusal that repeats the file name counts as
    accepted, whatever its status. *)
Theorem accept_rule file (status : Z) (body : string) :
  accept_cond file status body =
    (bool_decide (risk file = critical) || bool_decide (risk file = high))
    && ((status =? 200)%Z || (status =? 201)%Z
        || existsb (λ indicator, JS.includes (JS.toLowerCase body) indicator)
             (successIndicators file))
  ∧ (∀ pre post, body = pre +:+ file_name file +:+ post →
       risk file = critical ∨ risk file = high →
       accept_cond file status body = true).
Proof.
  assert (isSuccess file status body =
    ((status =? 200)%Z || (status =? 201)%Z
     || existsb (λ indicator, JS.includes (JS.toLowerCase body) indicator)
          (successIndicators file))) as E.
  { unfold isSuccess, successIndicators, existsb.
    destruct (status =? 200)%Z, (status =? 201)%Z; simpl;
      rewrite ?orb_true_r, ?orb_false_r; done. }
  unfold accept_cond. rewrite E. split; [apply andb_comm|].
  intros pre post -> Hrisk. apply andb_true_iff. split.
  - apply orb_true_iff. right. unfold successIndicators, existsb.
    rewrite includes_lowered. by rewrite !orb_true_r.
  - destruct Hrisk as [-> | ->]; done.
Qed.

Lemma accept_rule_witness :
  ∃ file, maliciousFiles !! 0 = Some file
    ∧ accept_cond file 403 "Rejected: shell.php is not an image" = true.
Proof.
  eexists. split; [reflexivity|].
  apply (proj2 (accept_rule _ 403 "Rejected: shell.php is not an image")
           "Rejected: " " is not an image"); [reflexivity|by left].
Defined.



End upload_more.

Section upload_test.
Import FileUpload.

Variable exec_all : RegExp.t → string → list string.

Implicit Types (env : Env) (w : World) (file : File).


Example upload_refused_reported :
  title <$> getFindings (reporter (snd (attempt no_urls "/upload" php_shell refusing start)))
  = ["Potential Unrestricted File Upload"].
Proof. reflexivity. Qed.

(** X23: the addresses the upload probe fetches back are those the
    patterns capture from the body and the three default locations of the
    file name, each once. *)
Theorem fileUrlUrls_distinct (responseBody filename : string) :
  NoDup (fileUrlUrls exec_all responseBody filename)
  ∧ (∀ u, u ∈ fileUrlUrls exec_all responseBody filename ↔
       u ∈ default_locations filename
       ∨ ∃ pattern, pattern ∈ url_patterns ∧ u ∈ exec_all pattern responseBody)
  ∧ 3 ≤ length (fileUrlUrls exec_all responseBody filename).
Proof.
  assert (∀ u, u ∈ fileUrlUrls exec_all responseBody filename ↔
       u ∈ default_locations filename
       ∨ ∃ pattern, pattern ∈ url_patterns ∧ u ∈ exec_all pattern responseBody)
    as Hin.
  { intros u. unfold fileUrlUrls. rewrite elem_of_unique, elem_of_app.
    rewrite elem_of_concat. split.
    - intros [(l & Hu & Hl)|Hd]; [right|by left].
      apply list_elem_of_fmap in Hl as (pattern & -> & Hp). by exists pattern.
    - intros [Hd|(pattern & Hp & Hu)]; [by right|left].
      exists (exec_all pattern responseBody). split; [done|].
      apply list_elem_of_fmap. by exists pattern. }
  split_and!; [apply unique_NoDup|done|].
  assert (NoDup (default_locations filename)) as Hnd.
  { unfold default_locations. repeat constructor; rewrite ?elem_of_cons, ?elem_of_nil;
      intros H; repeat destruct H as [H|H]; try done;
      rewrite !app_cons in H; by injection H. }
  change 3 with (length (default_locations filename)).
  apply submseteq_length, NoDup_submseteq; [done|].
  intros u Hu. apply Hin. by left.
Qed.




Example uniqueEndpoints_upload_page :
  uniqueEndpoints upload_page
  = [ "/api/files"; "/avatar"; "/upload"; "/api/upload"; "/files/upload"; "/attachments" ].
Proof. reflexivity. Qed.

End upload_test.


(** ** The SVG and the file-name tests *)

Section svg_test.
Import UploadMore.

Implicit Types (env : Env) (w : World).





End svg_test.

Section filename_test.
Import UploadMore.

Implicit Types (env : Env) (w : World).

Lemma split_nonempty (sep : ascii) (s : string) : JSMore.split sep s ≠ [].
Proof.
  destruct s as [|c s]; [done|]. simpl. case_bool_decide; [done|].
  by destruct (JSMore.split sep s).
Qed.

(** Joining the pieces with the separator gives the string back. *)
Lemma join_split (sep : ascii) (s : string) :
  JS.join (String sep "") (JSMore.split sep s) = s.
Proof.
  induction s as [|c s IH]; [done|].
  pose proof (split_nonempty sep s) as Hne. simpl.
  destruct (JSMore.split sep s) as [|piece pieces] eqn:E; [done|].
  case_bool_decide as Hc.
  - subst c. change (JS.join (String sep "") ("" :: piece :: pieces))
      with ("" +:+ String sep "" +:+ JS.join (String sep "") (piece :: pieces)).
    by rewrite IH.
  - rewrite <-IH. by destruct pieces.
Qed.

Lemma join_ends (sep : string) (xs : list string) :
  ∃ before, JS.join sep xs = before +:+ default "" (last xs).
Proof.
  induction xs as [|x xs IH]; [by exists ""|].
  destruct xs as [|y xs]; [by exists ""|].
  destruct IH as (before & E).
  exists (x +:+ sep +:+ before).
  change (JS.join sep (x :: y :: xs)) with (x +:+ sep +:+ JS.join sep (y :: xs)).
  rewrite E. by rewrite !string_app_assoc.
Qed.

(** The file name ends with its last segment. *)
Lemma last_segment_ends (filename : string) :
  ∃ before, filename = before +:+ last_segment filename.
Proof.
  destruct (join_ends "/" (JSMore.split "/" filename)) as (before & E).
  exists before. unfold last_segment, JSMore.pop. by rewrite <-E, (join_split "/").
Qed.

Lemma find_existsb {A B} (c : A → bool) (xs : list A) (a b : B) :
  match List.find c xs with Some _ => a | None => b end
  = if existsb c xs then a else b.
Proof. induction xs as [|x xs IH]; [done|]. simpl. by destruct (c x). Qed.

Lemma filename_attempt_outcome env w endpoint filename response (body : string) :
  net env (length (sent w)) (name_upload env w endpoint filename) = Ok response →
  text response = Ok body →
  filename_attempt endpoint filename env w
  = (Ok Next,
     if indicated filename body
     then after_finding (traversed endpoint filename)
            (after_request (name_upload env w endpoint filename) w)
     else after_request (name_upload env w endpoint filename) w).
Proof.
  intros Hnet Htext. unfold filename_attempt. apply try_catch_ok.
  erewrite bind_ok; [|reflexivity].
  erewrite bind_ok; [|unfold fetch; fold (boundary_at env w);
                      fold (name_upload env w endpoint filename); by rewrite Hnet].
  rewrite Htext. unfold await. erewrite bind_ok; [|reflexivity].
  erewrite bind_ok; [|apply (scan_first
    (λ indicator, JS.includes (JS.toLowerCase body) (JS.toLowerCase indicator))
    (λ _, traversed endpoint filename))].
  by rewrite find_existsb.
Qed.

(** X26: the file-name test takes an echo for a traversal.  When the
    answer to the upload can be read, the attempt adds one critical finding
    and no more if the body contains, in any letter case, one of four
    phrases or the last segment of the file name, whatever the status; so
    an answer that repeats the file name it refuses is reported. *)
Theorem filename_echo_reported env w endpoint filename response (pre post : string) :
  net env (length (sent w)) (name_upload env w endpoint filename) = Ok response →
  text response = Ok (pre +:+ filename +:+ post) →
  filename_attempt endpoint filename env w
  = (Ok Next, after_finding (traversed endpoint filename)
                (after_request (name_upload env w endpoint filename) w))
  ∧ severity (traversed endpoint filename) = critical.
Proof.
  intros Hnet Htext. rewrite (filename_attempt_outcome _ _ _ _ _ _ Hnet Htext).
  split; [|done].
  assert (indicated filename (pre +:+ filename +:+ post) = true) as ->; [|done].
  unfold indicated, traversalIndicators, existsb.
  destruct (last_segment_ends filename) as (before & E).
  assert (JS.includes (JS.toLowerCase (pre +:+ filename +:+ post))
            (JS.toLowerCase (last_segment filename)) = true) as ->.
  { rewrite E at 1. rewrite string_app_assoc, <-(string_app_assoc pre before).
    apply includes_lowered. }
  by rewrite !orb_true_r.
Qed.

Lemma filename_echo_reported_witness :
  filename_attempt "/upload" "../../../etc/passwd" echoing start
  = (Ok Next, after_finding (traversed "/upload" "../../../etc/passwd")
                (after_request (name_upload echoing start "/upload" "../../../etc/passwd")
                   start))
  ∧ severity (traversed "/upload" "../../../etc/passwd") = critical.
Proof.
  apply (filename_echo_reported echoing start "/upload" "../../../etc/passwd"
           {| status := 400; headers := ∅;
              text := Ok "Invalid file name: ../../../etc/passwd" |}
           "Invalid file name: " ""); reflexivity.
Defined.



Example last_segment_backslashes :
  last_segment "..\..\..\windows\system32\config\sam"
  = "..\..\..\windows\system32\config\sam".
Proof. reflexivity. Qed.

End filename_test.
